(** * proxycheck.py and logger.py: a shallow embedding

    The batch IP checker ([proxycheck.py]) and the harvesting script
    ([logger.py]) are embedded as Rocq functions.

    - A Python [str] is a Rocq [string]; one [ascii] stands for one code
      point below 256.
    - A Python [dict] with string keys is a [gmap string _]; a Python [set]
      of strings is a [gset string].
    - Everything the scripts obtain from outside (network replies, the
      clock, the file system, the csv tokenizer, [int()], the order in which
      futures complete, whether tqdm can be imported) is a field of the
      class [World].
    - [print], [time.sleep] and the network calls of a worker are recorded
      as a trace of [Event]s next to the returned value. *)

From Stdlib Require Import ZArith Ascii String.
From stdpp Require Import base numbers list list_numbers option strings
  gmap sorting pretty.

Local Open Scope Z_scope.
#[local] Set Warnings "-clear-no-such-hyp".

(** ** Python values *)

(** What [json.loads] returns; the checker stores and forwards it unread. *)
#[warnings="-register-all"]
Inductive Json : Type :=
  | JNull
  | JBool (b : bool)
  | JNum (mantissa exponent : Z)
  | JStr (s : string)
  | JArr (items : list Json)
  | JObj (members : list (string * Json)).

(** The values found in the dictionaries the two scripts build. *)
Inductive PyVal : Type :=
  | VBool (b : bool)
  | VInt (n : Z)
  | VNum (t : Z)          (* a [time.time()] reading, in clock ticks *)
  | VStr (s : string)
  | VJson (j : Json).

Abbreviation Dict := (gmap string PyVal).

(** Python truth value of a stored value, as used by [if result['success']]. *)
Definition truthy (v : PyVal) : bool :=
  match v with
  | VBool b => b
  | VInt n => negb (n =? 0)
  | VNum t => negb (t =? 0)
  | VStr s => negb (String.eqb s "")
  | VJson JNull => false
  | VJson (JBool b) => b
  | VJson (JNum m _) => negb (m =? 0)
  | VJson (JStr s) => negb (String.eqb s "")
  | VJson (JArr l) => match l with [] => false | _ => true end
  | VJson (JObj l) => match l with [] => false | _ => true end
  end.

(** Truth value of a dictionary ([if result:]): non-empty. *)
Definition dict_truthy (d : Dict) : bool := bool_decide (d ≠ ∅).

(** ** The outside world *)

(** Result of one [opener.open(url, timeout=15)] followed by
    [json.loads(response.read().decode('utf-8'))]. *)
Inductive Response : Type :=
  | Ok (data : Json)
  | HTTPError (code : Z) (reason : string)   (* urllib.error.HTTPError *)
  | OtherError (msg : string).               (* any other Exception; msg = str(e) *)

(** What [future.result()] does: hand back the worker's return value
    ([None] included) or re-raise what the worker raised. *)
Inductive FutureResult : Type :=
  | Returned (r : option Dict)
  | Raised (msg : string).

Record Future : Type := { fut_ip : string; fut_result : FutureResult }.

Class World : Type := {
  (* os.getenv('PROXYCHECK_API_KEY', '') *)
  PROXYCHECK_API_KEY : string;
  (* sys.argv *)
  argv : list string;
  (* reply to the request a worker sends for [url] in loop round [attempt] *)
  urlopen : string → Z → Response;
  (* time.time() / datetime.now().isoformat() read by the worker for [ip]
     when it returns in round [attempt] *)
  time_time : string → Z → Z;
  now_isoformat : string → Z → string;
  (* datetime.now().isoformat() read by main for the metadata *)
  generated_at_now : string;
  (* builtin int(str); None stands for ValueError *)
  py_int : string → option Z;
  (* open(filename, 'r', encoding='utf-8-sig').readlines(); None: it raised *)
  open_readlines : string → option (list string);
  (* rows produced by csv.reader(lines, delimiter='\t'); None: csv.Error *)
  csv_reader : list string → option (list (list string));
  (* whether [from tqdm import tqdm] succeeds *)
  tqdm_installed : bool;
  (* the order in which as_completed yields the submitted futures *)
  as_completed : list Future → list Future;
  (* logger.py: body of the reply to request number [check_id], decoded;
     None: opening, reading or decoding raised *)
  iplogger_open : Z → option string
}.

(** ** Effects of a worker *)

Inductive Msg : Type :=
  | MsgAttempt (ip : string) (n max_retries : Z)
  | MsgSuccess (ip : string)
  | MsgWait (ip : string) (backoff_time : Z)
  | MsgHttpRetry (ip : string) (code : Z)
  | MsgErrorRetry (ip : string) (text : string).

Inductive Event : Type :=
  | Request (url : string)
  | Sleep (secs : Z)
  | Print (m : Msg).

(** A computation returns a value together with the events it performed. *)
Definition Eff (A : Type) : Type := A * list Event.

#[global] Instance Eff_ret : MRet Eff := λ A a, (a, []).
#[global] Instance Eff_bind : MBind Eff := λ A B k m,
  let r := k m.1 in (r.1, m.2 ++ r.2).

Definition emit (e : Event) : Eff unit := (tt, [e]).
Definition when (b : bool) (m : Eff unit) : Eff unit := if b then m else mret tt.

Definition value {A} (m : Eff A) : A := m.1.
Definition trace {A} (m : Eff A) : list Event := m.2.

(** The delays of a trace, in order. *)
Definition sleeps (t : list Event) : list Z :=
  omap (λ e, match e with Sleep d => Some d | _ => None end) t.


(** ** proxycheck.py: the check worker *)

Section Worker.
Context `{W : World}.

(** The f-string that chooses the request URL. *)
Definition request_url (ip_address : string) : string :=
  if negb (String.eqb PROXYCHECK_API_KEY "")
  then "https://proxycheck.io/v3/" +:+ ip_address +:+ "?key=" +:+ PROXYCHECK_API_KEY
  else "https://proxycheck.io/v3/" +:+ ip_address.

(** [range(max_retries)]: empty when [max_retries <= 0]. *)
Definition range (n : Z) : list Z := seqZ 0 n.

(** [str(e)[:50]] *)
Definition first50 (s : string) : string := String.substring 0 50 s.

Definition success_outcome (ip_address : string) (data : Json) (attempt : Z) : Dict :=
  {[ "success" := VBool true;
     "ip" := VStr ip_address;
     "data" := VJson data;
     "timestamp" := VNum (time_time ip_address attempt);
     "checked_at" := VStr (now_isoformat ip_address attempt) ]}.

Definition failure_outcome (ip_address : string) (error : string) (attempt : Z) : Dict :=
  {[ "success" := VBool false;
     "ip" := VStr ip_address;
     "error" := VStr error;
     "timestamp" := VNum (time_time ip_address attempt);
     "checked_at" := VStr (now_isoformat ip_address attempt) ]}.

(** f'HTTP {e.code}: {e.reason}' *)
Definition http_error_text (code : Z) (reason : string) : string :=
  "HTTP " +:+ pretty code +:+ ": " +:+ reason.

(** The body of [for attempt in range(max_retries)], over the rounds still
    to run. Falling out of the loop reaches the final [return None]. *)
Fixpoint attempts (ip_address url : string) (max_retries retry_delay : Z)
    (verbose : bool) (rounds : list Z) : Eff (option Dict) :=
  match rounds with
  | [] => mret None
  | attempt :: rest =>
      when verbose (emit (Print (MsgAttempt ip_address (attempt + 1) max_retries)));;
      emit (Request url);;
      match urlopen url attempt with
      | Ok data =>
          when verbose (emit (Print (MsgSuccess ip_address)));;
          mret (Some (success_outcome ip_address data attempt))
      | HTTPError code reason =>
          if (code =? 429) && (attempt <? max_retries - 1) then
            let backoff_time := retry_delay * 2 ^ attempt in
            emit (Print (MsgWait ip_address backoff_time));;
            emit (Sleep backoff_time);;
            attempts ip_address url max_retries retry_delay verbose rest
          else if attempt <? max_retries - 1 then
            when verbose (emit (Print (MsgHttpRetry ip_address code)));;
            emit (Sleep retry_delay);;
            attempts ip_address url max_retries retry_delay verbose rest
          else
            mret (Some (failure_outcome ip_address (http_error_text code reason) attempt))
      | OtherError msg =>
          if attempt <? max_retries - 1 then
            when verbose (emit (Print (MsgErrorRetry ip_address (first50 msg))));;
            emit (Sleep retry_delay);;
            attempts ip_address url max_retries retry_delay verbose rest
          else
            mret (Some (failure_outcome ip_address msg attempt))
      end
  end.

Definition check_ip_proxycheck (ip_address : string) (max_retries retry_delay : Z)
    (verbose : bool) : Eff (option Dict) :=
  attempts ip_address (request_url ip_address) max_retries retry_delay verbose
    (range max_retries).

(** The call [check_ip_proxycheck(ip)] that main submits: the defaults
    [max_retries=3, retry_delay=2, verbose=False]. *)
Definition check_ip_default (ip : string) : Eff (option Dict) :=
  check_ip_proxycheck ip 3 2 false.

End Worker.

(** ** String methods used by the scripts *)

(** [str.isspace] on a code point below 256. *)
Definition py_isspace (c : ascii) : bool :=
  let n := N_of_ascii c in
  ((9 <=? n) && (n <=? 13) || (28 <=? n) && (n <=? 32) || (n =? 133) || (n =? 160))%N.

Fixpoint lstrip_by (p : ascii → bool) (s : string) : string :=
  match s with
  | String c s' => if p c then lstrip_by p s' else s
  | EmptyString => EmptyString
  end.

Definition strip_by (p : ascii → bool) (s : string) : string :=
  String.rev (lstrip_by p (String.rev (lstrip_by p s))).

(** [s.strip()] *)
Definition py_strip : string → string := strip_by py_isspace.

(** [s.strip(chars)] *)
Definition py_strip_chars (chars : list ascii) : string → string :=
  strip_by (λ c, existsb (Ascii.eqb c) chars).

(** [s.split(sep)] for a one-character separator: never the empty list. *)
Fixpoint py_split (sep : ascii) (s : string) : list string :=
  match s with
  | EmptyString => [EmptyString]
  | String c s' =>
      if Ascii.eqb c sep then EmptyString :: py_split sep s'
      else match py_split sep s' with
           | w :: ws => String c w :: ws
           | [] => [String c EmptyString]
           end
  end.

(** [c in s] for a one-character [c]. *)
Fixpoint py_contains (c : ascii) (s : string) : bool :=
  match s with
  | EmptyString => false
  | String a s' => Ascii.eqb a c || py_contains c s'
  end.

(** [s.startswith(p)] *)
Definition py_startswith (p s : string) : bool := String.prefix p s.

(** [sorted(l)] on strings: ascending by code points. *)
Definition sorted (l : list string) : list string := merge_sort String.le l.

Definition dquote : ascii := ascii_of_N 34.

(** ** proxycheck.py: the target provider *)

(** A row of [csv.DictReader]; a cell is [None] where Python has [None]. *)
Abbreviation Row := (gmap string (option string)).

Section Provider.
Context `{W : World}.

(** [dict(zip(fieldnames, row))]: a later duplicate of a key wins. *)
Definition dict_zip (fieldnames row : list string) : Row :=
  foldl (λ d kv, <[kv.1 := Some kv.2]> d) ∅ (zip fieldnames row).

(** [for key in fieldnames[lr:]: d[key] = restval], with [restval = None]. *)
Definition fill_restval (keys : list string) (d : Row) : Row :=
  foldl (λ d key, <[key := None]> d) d keys.

(** One step of [DictReader.__next__] on a non-blank row. Surplus cells go
    under the key [None], which no string key reads. *)
Definition make_row (fieldnames row : list string) : Row :=
  fill_restval (drop (length row) fieldnames) (dict_zip fieldnames row).

(** [csv.DictReader(lines, delimiter='\t')]: the first row names the
    fields, blank rows are skipped. *)
Definition DictReader (lines : list string) : option (list Row) :=
  rows ← csv_reader lines;
  match rows with
  | [] => Some []
  | fieldnames :: rest =>
      Some (make_row fieldnames <$> filter (λ r, r ≠ []) rest)
  end.

(** [row.get(key, default)]; the result is [None] for a Python [None]. *)
Definition row_get (row : Row) (key default : string) : option string :=
  match row !! key with
  | Some cell => cell
  | None => Some default
  end.

(** [all(0 <= int(p) <= 255 for p in parts)], left to right and stopping at
    the first false; [None] when an [int(p)] it reaches raises ValueError. *)
Fixpoint all_octets (parts : list string) : option bool :=
  match parts with
  | [] => Some true
  | p :: ps =>
      n ← py_int p;
      if (0 <=? n) && (n <=? 255) then all_octets ps else Some false
  end.

(** The body of [for row in reader]; [None] when it raises (calling
    [.strip()] on [None]), which leaves the loop for the outer handler. *)
Definition scan_row (ips : gset string) (row : Row) : option (gset string) :=
  cell ← row_get row "Ip" "";
  let ip := py_strip_chars [dquote] (py_strip cell) in
  Some (
    if negb (String.eqb ip "") && py_contains "." ip then
      let parts := py_split "." ip in
      if (length parts =? 4)%nat then
        match all_octets parts with
        | Some true => {[ ip ]} ∪ ips
        | Some false => ips
        | None => ips              (* except ValueError: continue *)
        end
      else ips
    else ips).

Fixpoint scan_rows (ips : gset string) (rows : list Row) : option (gset string) :=
  match rows with
  | [] => Some ips
  | row :: rest => ips' ← scan_row ips row; scan_rows ips' rest
  end.

(** Drop the first line when it is the [sep=] line. *)
Definition skip_sep (lines : list string) : list string :=
  match lines with
  | first :: others => if py_startswith "sep=" (py_strip first) then others else lines
  | [] => lines
  end.

(** The [try] block of [load_ips_from_csv]; [None] when it raises. *)
Definition load_ips_try (filename : string) : option (list string) :=
  lines ← open_readlines filename;
  rows ← DictReader (skip_sep lines);
  ips ← scan_rows ∅ rows;
  Some (sorted (elements ips)).

Definition load_ips_from_csv (filename : string) : list string :=
  match load_ips_try filename with
  | Some result => result
  | None => []                     (* except Exception: return [] *)
  end.

End Provider.

(** ** proxycheck.py: main *)

(** The module-level [results], [processed_count] and [error_count]. *)
Record Globals : Type := {
  results : gmap string Dict;
  processed_count : Z;
  error_count : Z
}.

Definition initial_globals : Globals :=
  {| results := ∅; processed_count := 0; error_count := 0 |}.

(** What the collecting loop does besides updating the counters: the
    assignment [results[ip] = result] and the calls of the two displays. *)
Inductive MainEvent : Type :=
  | Assign (ip : string) (result : Dict)
  | PbarPostfix (ok ng : Z) (current : string)
  | PbarPostfixError (ok ng : Z) (text : string)
  | PbarUpdate
  | PrintStatus (ok_status : bool) (ip : string) (ok ng : Z)
  | PrintError (ip : string) (text : string).

Record Metadata : Type := {
  source_file : string;
  total_ips : Z;
  successful : Z;
  failed : Z;
  generated_at : string;
  api_key_used : bool
}.

Record OutputData : Type := {
  metadata : Metadata;
  output_results : gmap string Dict
}.

(** How a run of main ends: the exit status of the process, the file
    written by [save_json] if it was reached, the final module globals and
    the events of the collecting loop. *)
Record Run : Type := {
  exit_code : Z;
  written : option (string * OutputData);
  final : Globals;
  journal : list MainEvent
}.

Section Main.
Context `{W : World}.

(** The [except Exception as e] branch of the collecting loop. *)
Definition on_exception (use_tqdm : bool) (ip text : string) (g : Globals)
    : Globals * list MainEvent :=
  let g' := {| results := results g;
               processed_count := processed_count g;
               error_count := error_count g + 1 |} in
  (g', if use_tqdm
       then [PbarPostfixError (processed_count g') (error_count g')
               (String.substring 0 20 text); PbarUpdate]
       else [PrintError ip text]).

(** The body of [for future in as_completed(futures)]. *)
Definition collect_one (use_tqdm : bool) (g : Globals) (future : Future)
    : Globals * list MainEvent :=
  let ip := fut_ip future in
  match fut_result future with
  | Raised text => on_exception use_tqdm ip text g
  | Returned None => (g, [])
  | Returned (Some result) =>
      if dict_truthy result then
        let stored := {| results := <[ip := result]> (results g);
                         processed_count := processed_count g;
                         error_count := error_count g |} in
        match result !! "success" with
        | None =>
            (* result['success'] raises KeyError after the assignment *)
            let r := on_exception use_tqdm ip "'success'" stored in
            (r.1, Assign ip result :: r.2)
        | Some flag =>
            let g' :=
              if truthy flag
              then {| results := results stored;
                      processed_count := processed_count stored + 1;
                      error_count := error_count stored |}
              else {| results := results stored;
                      processed_count := processed_count stored;
                      error_count := error_count stored + 1 |} in
            (g', Assign ip result ::
                 (if use_tqdm
                  then [PbarPostfix (processed_count g') (error_count g')
                          (String.substring 0 15 ip); PbarUpdate]
                  else [PrintStatus (truthy flag) ip
                          (processed_count g') (error_count g')]))
        end
      else (g, [])
  end.

Fixpoint collect (use_tqdm : bool) (g : Globals) (completed : list Future)
    : Globals * list MainEvent :=
  match completed with
  | [] => (g, [])
  | future :: rest =>
      let r1 := collect_one use_tqdm g future in
      let r2 := collect use_tqdm r1.1 rest in
      (r2.1, r1.2 ++ r2.2)
  end.

(** [executor.submit(check_ip_proxycheck, ip)] for every target, in the
    order of the provider; [futures[future] = ip]. *)
Definition submit_all (ips : list string) : list Future :=
  (λ ip, {| fut_ip := ip;
            fut_result := Returned (value (check_ip_default ip)) |}) <$> ips.

Definition build_output (input_file : string) (ips : list string) (g : Globals)
    : OutputData :=
  {| metadata := {| source_file := input_file;
                    total_ips := Z.of_nat (length ips);
                    successful := processed_count g;
                    failed := error_count g;
                    generated_at := generated_at_now;
                    api_key_used := negb (String.eqb PROXYCHECK_API_KEY "") |};
     output_results := results g |}.

Definition exit_early (status : Z) : Run :=
  {| exit_code := status; written := None;
     final := initial_globals; journal := [] |}.

(** The part of main after the targets are loaded, for a given choice of
    display. *)
Definition run_batch (use_tqdm : bool) (input_file output_file : string)
    (ips : list string) : Run :=
  let r := collect use_tqdm initial_globals (as_completed (submit_all ips)) in
  {| exit_code := 0;
     written := Some (output_file, build_output input_file ips r.1);
     final := r.1;
     journal := r.2 |}.

(** [main()]. The banner and summary lines, the pacing sleeps between
    submissions and the elapsed-time arithmetic are left out; the output
    path is taken to be writable and the elapsed time to be positive, so
    that [save_json] and the throughput line do not raise. *)
Definition main : Run :=
  match argv with
  | _ :: input_file :: rest =>
      let output_file :=
        match rest with
        | out :: _ => out
        | [] => "proxycheck_results.json"
        end in
      let ips := load_ips_from_csv input_file in
      match ips with
      | [] => exit_early 1                         (* if not ips: sys.exit(1) *)
      | _ :: _ => run_batch tqdm_installed input_file output_file ips
      end
  | _ => exit_early 1                              (* len(sys.argv) < 2 *)
  end.

End Main.

(** ** logger.py *)

Section Logger.
Context `{W : World}.

(** The [for line in lines] loop of [get_ip]: the first line made of four
    dot-separated numbers in 0..255, if any. A line on which [int] raises
    is skipped by the bare [except]. *)
Fixpoint first_address (lines : list string) : option string :=
  match lines with
  | [] => None
  | raw :: rest =>
      let line := py_strip raw in
      let parts := py_split "." line in
      if (length parts =? 4)%nat then
        match all_octets parts with
        | Some true => Some line
        | Some false => first_address rest
        | None => first_address rest
        end
      else first_address rest
  end.

Definition get_ip (check_id : Z) : Dict :=
  match iplogger_open check_id with
  | Some body =>
      let ip := py_strip body in
      let lines := py_split "010" ip in
      match first_address lines with
      | Some line =>
          {[ "success" := VBool true; "ip" := VStr line; "id" := VInt check_id ]}
      | None =>
          match lines with
          | first :: _ =>
              {[ "success" := VBool true; "ip" := VStr (py_strip first);
                 "id" := VInt check_id ]}
          | [] =>
              (* lines[0] raises IndexError: the outer handler *)
              {[ "success" := VBool true; "ip" := VStr "logged";
                 "id" := VInt check_id;
                 "note" := VStr "Response failed but logged" ]}
          end
      end
  | None =>
      {[ "success" := VBool true; "ip" := VStr "logged"; "id" := VInt check_id;
         "note" := VStr "Response failed but logged" ]}
  end.

(** The collecting loop of logger.py's main over the check ids in the
    order their futures complete: every result is appended to [results]
    and counted in [success_count]. *)
Definition harvest (completed : list Z) : list Dict * Z :=
  foldl (λ acc check_id, (acc.1 ++ [get_ip check_id], acc.2 + 1)) ([], 0) completed.

End Logger.

(** ** Vocabulary of the statements *)

(** A trace without its [print] lines: the network calls and the sleeps. *)
Definition timeline (t : list Event) : list Event :=
  omap (λ e, match e with Print _ => None | _ => Some e end) t.

(** The delay the retry rules prescribe after attempt number [n], counted
    from 1, failed with [reply] while attempts remain: [B * 2^(n-1)] for
    the rate-limit status, the base delay [B] for any other failure. *)
Definition spec_delay (B n : Z) (reply : Response) : Z :=
  match reply with
  | HTTPError code _ => if code =? 429 then B * 2 ^ (n - 1) else B
  | _ => B
  end.


(** The keys assigned in [results], in the order of the assignments. *)
Definition assignments (j : list MainEvent) : list string :=
  omap (λ e, match e with Assign ip _ => Some ip | _ => None end) j.

(** A future as [main] creates them: it returned a non-empty dictionary
    with a boolean ['success']. *)
Definition wellformed (f : Future) : Prop :=
  ∃ d b, fut_result f = Returned (Some d) ∧
         dict_truthy d = true ∧ d !! "success" = Some (VBool b).

(** The same world with the availability of tqdm set to [b]. *)
Definition with_tqdm (b : bool) (W : World) : World :=
  {| PROXYCHECK_API_KEY := PROXYCHECK_API_KEY;
     argv := argv;
     urlopen := urlopen;
     time_time := time_time;
     now_isoformat := now_isoformat;
     generated_at_now := generated_at_now;
     py_int := py_int;
     open_readlines := open_readlines;
     csv_reader := csv_reader;
     tqdm_installed := b;
     as_completed := as_completed;
     iplogger_open := iplogger_open |}.

(** A string in the shape the provider accepts: four pieces between dots,
    each read by [int] as a number from 0 to 255. *)
Definition dotted_quad `{W : World} (ip : string) : Prop :=
  let parts := py_split "." ip in
  length parts = 4%nat ∧
  Forall (λ p, ∃ n, py_int p = Some n ∧ 0 ≤ n ≤ 255) parts.

(** ** Concrete worlds *)

Module Demo.

Definition tab : string := String (ascii_of_N 9) EmptyString.
Definition nl : string := String (ascii_of_N 10) EmptyString.

Fixpoint digits_value (acc : Z) (s : string) : option Z :=
  match s with
  | EmptyString => Some acc
  | String c s' =>
      match Ascii.is_nat c with
      | Some d => digits_value (10 * acc + Z.of_nat d) s'
      | None => None
      end
  end.

(** [int(s)] on plain decimal literals: surrounding blanks, an optional
    sign, then digits. *)
Definition int_decimal (s : string) : option Z :=
  match py_strip s with
  | EmptyString => None
  | String c r =>
      if Ascii.eqb c "-" then
        (if String.eqb r "" then None else Z.opp <$> digits_value 0 r)
      else if Ascii.eqb c "+" then
        (if String.eqb r "" then None else digits_value 0 r)
      else digits_value 0 (String c r)
  end.

(** [csv.reader(lines, delimiter='\t')] on lines without quote characters:
    the line end is removed, an empty line gives an empty row. *)
Definition tab_rows (lines : list string) : option (list (list string)) :=
  Some ((λ line,
           let text := strip_by (λ c, Ascii.eqb c "010" || Ascii.eqb c "013") line in
           if String.eqb text "" then [] else py_split "009" text) <$> lines).

(** An export with a [sep=] line, a two-column header, a repeated address,
    an address out of range and a non-numeric cell. *)
Definition export_lines : list string :=
  [ "sep=" +:+ tab +:+ nl;
    "Date" +:+ tab +:+ "Ip" +:+ nl;
    "2024-01-01" +:+ tab +:+ "9.9.9.9" +:+ nl;
    "2024-01-02" +:+ tab +:+ "8.8.8.8" +:+ nl;
    "2024-01-03" +:+ tab +:+ "9.9.9.9" +:+ nl;
    "2024-01-04" +:+ tab +:+ "300.1.1.1" +:+ nl;
    "2024-01-05" +:+ tab +:+ "a.b.c.d" +:+ nl;
    "2024-01-06" +:+ tab +:+ "1.2.3.4" +:+ nl ].

Definition ok_payload : Json := JObj [("status", JStr "ok")].
Definition url8 : string := "https://proxycheck.io/v3/8.8.8.8".
Definition url9 : string := "https://proxycheck.io/v3/9.9.9.9".

(** The upstream service throttles every request about 9.9.9.9, throttles
    the first two requests about 8.8.8.8, and answers everything else. *)
Definition throttling (url : string) (attempt : Z) : Response :=
  if String.eqb url url9 then
    HTTPError 429 "Too Many Requests"
  else if String.eqb url url8 then
    (if attempt <? 2 then HTTPError 429 "Too Many Requests" else Ok ok_payload)
  else Ok ok_payload.

Definition world (args : list string) (tqdm : bool) : World :=
  {| PROXYCHECK_API_KEY := "";
     argv := args;
     urlopen := throttling;
     time_time := λ _ attempt, 1700000000 + attempt;
     now_isoformat := λ _ _, "2024-01-07T12:00:00";
     generated_at_now := "2024-01-07T12:05:00";
     py_int := int_decimal;
     open_readlines := λ filename,
       if String.eqb filename "export.csv" then Some export_lines else None;
     csv_reader := tab_rows;
     tqdm_installed := tqdm;
     as_completed := reverse;
     iplogger_open := λ check_id,
       if check_id =? 1 then Some ("203.0.113.7" +:+ nl) else None |}.

(** [python proxycheck.py export.csv] *)
Definition readable : World := world ["proxycheck.py"; "export.csv"] true.

(** [python proxycheck.py missing.csv] *)
Definition unreadable : World := world ["proxycheck.py"; "missing.csv"] false.

End Demo.

(** ** Further vocabulary *)



(** The time a trace spends in [time.sleep]. *)
Definition total_sleep (t : list Event) : Z := foldr Z.add 0 (sleeps t).

(** What [load_ips_from_csv] makes of a cell: [.strip()], then the strip
    of double quotes. *)
Definition clean_cell (cell : string) : string :=
  py_strip_chars [dquote] (py_strip cell).

(** What one completed future contributes to the module globals: the
    dictionary stored under its address, if any, and the increments of
    [processed_count] and [error_count]. *)
Definition contribution (f : Future) : option Dict * Z * Z :=
  match fut_result f with
  | Raised _ => (None, 0, 1)
  | Returned None => (None, 0, 0)
  | Returned (Some d) =>
      if dict_truthy d then
        match d !! "success" with
        | None => (Some d, 0, 1)
        | Some flag => if truthy flag then (Some d, 1, 0) else (Some d, 0, 1)
        end
      else (None, 0, 0)
  end.

Definition contribute (f : Future) (g : Globals) : Globals :=
  {| results := match (contribution f).1.1 with
                | Some d => <[fut_ip f := d]> (results g)
                | None => results g
                end;
     processed_count := processed_count g + (contribution f).1.2;
     error_count := error_count g + (contribution f).2 |}.

(** Whether the worker main submits for [ip] returns a record whose
    ['success'] is true. *)
Definition succeeded `{W : World} (ip : string) : bool :=
  match value (check_ip_default ip) with
  | Some d => match d !! "success" with
              | Some flag => truthy flag
              | None => false
              end
  | None => false
  end.

(** ** logger.py: the statistics of main *)

(** The address a record shows under ['ip'], when it is a string. *)
Definition shown_ip (r : Dict) : option string :=
  match r !! "ip" with
  | Some (VStr ip) => Some ip
  | _ => None
  end.

(** The body of [for r in results] that fills [unique_ips] and
    [ip_counts]. [None] stands for the [KeyError] of [r['ip']] on a record
    without that key; a value that is not a string, which [get_ip] never
    stores, is not followed further and gives [None] too. *)
Definition tally_step (acc : gset string * gmap string Z) (r : Dict)
    : option (gset string * gmap string Z) :=
  ip ← shown_ip r;
  Some (if negb (String.eqb ip "logged")
        then ({[ ip ]} ∪ acc.1, <[ip := default 0 (acc.2 !! ip) + 1]> acc.2)
        else acc).

Fixpoint tally_from (acc : gset string * gmap string Z) (rs : list Dict)
    : option (gset string * gmap string Z) :=
  match rs with
  | [] => Some acc
  | r :: rest => acc' ← tally_step acc r; tally_from acc' rest
  end.

Definition tally (rs : list Dict) : option (gset string * gmap string Z) :=
  tally_from (∅, ∅) rs.

(** The addresses that count for the statistics, one per record. *)
Definition counted_ips (rs : list Dict) : list string :=
  filter (λ ip, ip ≠ "logged") (omap shown_ip rs).

(** ** analyze_results.py *)

(** A Python [dict] read from JSON is a [JObj] whose members are the
    items of the dictionary in insertion order. A [None] result of the
    functions below stands for an exception that leaves [analyze_json]. *)

(** [d[key]] for a key of the dictionary. *)
Fixpoint jlookup (key : string) (members : list (string * Json)) : option Json :=
  match members with
  | [] => None
  | (k, v) :: rest => if String.eqb k key then Some v else jlookup key rest
  end.

(** [d.get(key, default)]; AttributeError unless [d] is a dictionary. *)
Definition dict_get (d : Json) (key : string) (default : Json) : option Json :=
  match d with
  | JObj members => Some (from_option id default (jlookup key members))
  | _ => None
  end.

(** [d.items()] or [d.keys()]; AttributeError unless [d] is a dictionary. *)
Definition dict_items (d : Json) : option (list (string * Json)) :=
  match d with
  | JObj members => Some members
  | _ => None
  end.

(** Truth value of a JSON value. *)
Definition json_truthy (j : Json) : bool := truthy (VJson j).

(** [hash(j)], needed to use [j] as a key of the [Counter]: TypeError for
    lists and dictionaries. *)
Definition hashable (j : Json) : option unit :=
  match j with
  | JArr _ | JObj _ => None
  | _ => Some tt
  end.

Definition reserved_keys : list string := ["status"; "node"; "query_time"].

(** The loop that picks [ip_data]: the value of the first key that is not
    one of the three reserved names. *)
Fixpoint pick_ip_data (members : list (string * Json)) : option Json :=
  match members with
  | [] => None
  | (key, v) :: rest =>
      if bool_decide (key ∈ reserved_keys) then pick_ip_data rest else Some v
  end.

Definition yes_no (j : Json) : string := if json_truthy j then "Yes" else "No".

(** One dictionary appended to [stats]. *)
Record StatRow : Type := {
  row_IP : string;
  row_Country : Json;
  row_Country_Code : Json;
  row_Region : Json;
  row_City : Json;
  row_ISP : Json;
  row_Organization : Json;
  row_ASN : Json;
  row_Proxy : string;
  row_VPN : string;
  row_Tor : string;
  row_Risk_Score : Json;
  row_Type : Json;
  row_Latitude : Json;
  row_Longitude : Json;
  row_Timezone : Json;
  row_Checked_At : Json
}.

(** The variables the loop of [analyze_json] fills. [country_marks] has
    one entry per execution of [countries[country] += 1], in order. *)
Record Tables : Type := {
  stats : list StatRow;
  country_marks : list Json;
  proxy_count : Z;
  vpn_count : Z;
  tor_count : Z;
  risk_scores : list Json
}.

Definition empty_tables : Tables :=
  {| stats := []; country_marks := []; proxy_count := 0; vpn_count := 0;
     tor_count := 0; risk_scores := [] |}.

(** The body of [for ip, result in results.items()]. *)
Definition analyze_entry (t : Tables) (ip : string) (result : Json) : option Tables :=
  success ← dict_get result "success" JNull;
  if negb (json_truthy success) then Some t else
  result_data ← dict_get result "data" (JObj []);
  members ← dict_items result_data;
  match pick_ip_data members with
  | None => Some t
  | Some ip_data =>
      if negb (json_truthy ip_data) then Some t else
      detections ← dict_get ip_data "detections" (JObj []);
      location ← dict_get ip_data "location" (JObj []);
      network ← dict_get ip_data "network" (JObj []);
      is_proxy ← dict_get detections "proxy" (JBool false);
      is_vpn ← dict_get detections "vpn" (JBool false);
      is_tor ← dict_get detections "tor" (JBool false);
      risk ← dict_get detections "risk" (JNum 0 0);
      country ← dict_get location "country_name" (JStr "Unknown");
      _ ← hashable country;
      country_code ← dict_get location "country_code" (JStr "");
      region ← dict_get location "region_name" (JStr "");
      city ← dict_get location "city_name" (JStr "");
      provider ← dict_get network "provider" (JStr "");
      organisation ← dict_get network "organisation" (JStr "");
      asn ← dict_get network "asn" (JStr "");
      type ← dict_get network "type" (JStr "");
      latitude ← dict_get location "latitude" (JStr "");
      longitude ← dict_get location "longitude" (JStr "");
      timezone ← dict_get location "timezone" (JStr "");
      checked_at ← dict_get result "checked_at" (JStr "");
      Some {| stats := stats t ++ [
                {| row_IP := ip; row_Country := country;
                   row_Country_Code := country_code; row_Region := region;
                   row_City := city; row_ISP := provider;
                   row_Organization := organisation; row_ASN := asn;
                   row_Proxy := yes_no is_proxy; row_VPN := yes_no is_vpn;
                   row_Tor := yes_no is_tor; row_Risk_Score := risk;
                   row_Type := type; row_Latitude := latitude;
                   row_Longitude := longitude; row_Timezone := timezone;
                   row_Checked_At := checked_at |} ];
              country_marks := country_marks t ++ [country];
              proxy_count := proxy_count t + (if json_truthy is_proxy then 1 else 0);
              vpn_count := vpn_count t + (if json_truthy is_vpn then 1 else 0);
              tor_count := tor_count t + (if json_truthy is_tor then 1 else 0);
              risk_scores := risk_scores t ++ [risk] |}
  end.

Fixpoint analyze_entries (t : Tables) (items : list (string * Json)) : option Tables :=
  match items with
  | [] => Some t
  | (ip, result) :: rest => t' ← analyze_entry t ip result; analyze_entries t' rest
  end.

(** [analyze_json] from the loaded document up to the end of the loop.
    [len(results)] and [results.items()] together raise unless [results]
    is a dictionary. *)
Definition analyze_tables (data : Json) : option Tables :=
  _ ← dict_get data "metadata" (JObj []);
  results ← dict_get data "results" (JObj []);
  items ← dict_items results;
  analyze_entries empty_tables items.

(** What [open(json_file)] and [json.load] give. *)
Inductive Loaded : Type :=
  | FileNotFound
  | JSONDecodeError
  | LoadFailed                  (* any other exception *)
  | LoadedJson (data : Json).

(** How far a run of analyze_results.py is followed: to an exit status,
    or to the point where the table of [stats] is handed to
    [csv.DictWriter]. The writing itself and the summary and countries
    files that follow it format floating-point numbers and are not
    followed. *)
Inductive AnalyzerEnd : Type :=
  | Exit (status : Z)
  | StatsHandedOver (csv_file : string) (t : Tables).

Definition analyze_main (args : list string) (load : string → Loaded) : AnalyzerEnd :=
  match args with
  | _ :: json_file :: rest =>
      let csv_file :=
        match rest with
        | out :: _ => out
        | [] => "proxycheck_stats.csv"
        end in
      match load json_file with
      | LoadedJson data =>
          match analyze_tables data with
          | Some t =>
              match stats t with
              | [] => Exit 0                 (* "No data to write"; return *)
              | _ :: _ => StatsHandedOver csv_file t
              end
          | None => Exit 1                   (* except Exception *)
          end
      | FileNotFound => Exit 1
      | JSONDecodeError => Exit 1
      | LoadFailed => Exit 1
      end
  | _ => Exit 1                              (* len(sys.argv) < 2 *)
  end.

(** Whether an entry of [results] passes [if not result.get('success')]. *)
Definition entry_success (result : Json) : bool :=
  match dict_get result "success" JNull with
  | Some success => json_truthy success
  | None => false
  end.

(** The counters agree with the rows collected so far. *)
Definition entry_counts (t : Tables) : Prop :=
  length (risk_scores t) = length (stats t) ∧
  length (country_marks t) = length (stats t) ∧
  proxy_count t = Z.of_nat (length (filter (λ r, row_Proxy r = "Yes") (stats t))) ∧
  vpn_count t = Z.of_nat (length (filter (λ r, row_VPN r = "Yes") (stats t))) ∧
  tor_count t = Z.of_nat (length (filter (λ r, row_Tor r = "Yes") (stats t))).

(** ** Further concrete worlds and documents *)

Module Cases.
Import Demo.

(** An export with a row that ends before the ['Ip'] column. *)
Definition short_lines : list string :=
  [ "Date" +:+ tab +:+ "Ip" +:+ nl;
    "2024-01-01" +:+ tab +:+ "9.9.9.9" +:+ nl;
    "2024-01-02" +:+ nl ].

(** An export whose address column is spelled differently. *)
Definition nocolumn_lines : list string :=
  [ "Date" +:+ tab +:+ "IP" +:+ nl;
    "2024-01-01" +:+ tab +:+ "9.9.9.9" +:+ nl ].

(** Two exports with the same rows in different order. *)
Definition forward_lines : list string :=
  [ "Ip" +:+ nl; "9.9.9.9" +:+ nl; "1.2.3.4" +:+ nl; "7.7.7" +:+ nl ].
Definition backward_lines : list string :=
  [ "Ip" +:+ nl; "7.7.7" +:+ nl; "1.2.3.4" +:+ nl; "9.9.9.9" +:+ nl ].

Definition library (filename : string) : option (list string) :=
  if String.eqb filename "short.csv" then Some short_lines
  else if String.eqb filename "nocolumn.csv" then Some nocolumn_lines
  else if String.eqb filename "forward.csv" then Some forward_lines
  else if String.eqb filename "backward.csv" then Some backward_lines
  else None.

(** A world in which the upstream service answers every request. *)
Definition answering (args : list string) : World :=
  {| PROXYCHECK_API_KEY := "secret";
     argv := args;
     urlopen := λ url _, Ok (JObj [("url", JStr url)]);
     time_time := λ _ attempt, 1700000000 + attempt;
     now_isoformat := λ _ _, "2024-01-07T12:00:00";
     generated_at_now := "2024-01-07T12:05:00";
     py_int := int_decimal;
     open_readlines := library;
     csv_reader := tab_rows;
     tqdm_installed := false;
     as_completed := reverse;
     iplogger_open := λ _, None |}.

Definition forward_run : World := answering ["proxycheck.py"; "forward.csv"; "out.json"].

Definition checked_entry : Json :=
  JObj [ ("success", JBool true); ("ip", JStr "1.2.3.4");
         ("data", JObj [ ("status", JStr "ok");
                         ("1.2.3.4",
                          JObj [ ("detections", JObj [ ("proxy", JBool true);
                                                       ("vpn", JBool false);
                                                       ("risk", JNum 66 0) ]);
                                 ("location", JObj [ ("country_name", JStr "Japan") ]);
                                 ("network", JObj [ ("provider", JStr "Example ISP") ]) ]) ]);
         ("checked_at", JStr "2024-01-07T12:00:00") ].

Definition failed_entry : Json :=
  JObj [ ("success", JBool false); ("ip", JStr "9.9.9.9");
         ("error", JStr "HTTP 429: Too Many Requests") ].

Definition document (entries : list (string * Json)) : Json :=
  JObj [ ("metadata", JObj [ ("total_ips", JNum (Z.of_nat (length entries)) 0) ]);
         ("results", JObj entries) ].

Definition mixed_entries : list (string * Json) :=
  [ ("9.9.9.9", failed_entry); ("1.2.3.4", checked_entry) ].

Definition shelf (json_file : string) : Loaded :=
  if String.eqb json_file "mixed.json" then LoadedJson (document mixed_entries)
  else if String.eqb json_file "failed.json" then
    LoadedJson (document [("9.9.9.9", failed_entry)])
  else if String.eqb json_file "broken.json" then
    LoadedJson (document [ ("1.2.3.4", checked_entry); ("8.8.8.8", JStr "pending");
                           ("9.9.9.9", failed_entry) ])
  else if String.eqb json_file "garbage.json" then JSONDecodeError
  else FileNotFound.

(** The rows [csv.DictReader] makes of the export of [Demo]. *)
Definition export_rows : list Row :=
  default [] (@DictReader readable (skip_sep export_lines)).

(** The tables the analysis makes of the mixed document. *)
Definition mixed_tables : Tables :=
  default empty_tables (analyze_tables (document mixed_entries)).

End Cases.

(** * Properties *)

(** Goals about which keys of a known dictionary are present. *)
Ltac presence :=
  split_and!; split; intros; simplify_eq; eauto;
  repeat match goal with
  | H : is_Some None |- _ => by destruct H
  | H : ¬ is_Some (Some _) |- _ => by destruct H
  | |- ¬ is_Some None => by intros []
  end.

(** ** One step of the collecting loop *)

(** A non-empty dictionary with a boolean ['success'] is stored under its
    address, counted once, and assigned once. *)
Lemma collect_one_stores use_tqdm g ip d b :
  dict_truthy d = true →
  d !! "success" = Some (VBool b) →
  let r := collect_one use_tqdm g {| fut_ip := ip; fut_result := Returned (Some d) |} in
  results r.1 = <[ip := d]> (results g) ∧
  processed_count r.1 = processed_count g + (if b then 1 else 0) ∧
  error_count r.1 = error_count g + (if b then 0 else 1) ∧
  assignments r.2 = [ip].
Proof.
  intros Ht Hb. unfold collect_one; cbn [fut_result fut_ip]. rewrite Ht, Hb.
  destruct b, use_tqdm; cbn; split_and!; try done; lia.
Qed.

(** ** The check worker *)

Section WorkerProperties.
Context `{W : World}.

Lemma attempts_step_value ip url K B v a rest :
  value (attempts ip url K B v (a :: rest)) =
  match urlopen url a with
  | Ok data => Some (success_outcome ip data a)
  | HTTPError code reason =>
      if a <? K - 1 then value (attempts ip url K B v rest)
      else Some (failure_outcome ip (http_error_text code reason) a)
  | OtherError msg =>
      if a <? K - 1 then value (attempts ip url K B v rest)
      else Some (failure_outcome ip msg a)
  end.
Proof.
  cbn [attempts].
  destruct (urlopen url a) as [data|code reason|msg]; [reflexivity| |];
    destruct (a <? K - 1); try destruct (code =? 429); destruct v; reflexivity.
Qed.

Lemma attempts_step_timeline ip url K B v a rest :
  timeline (trace (attempts ip url K B v (a :: rest))) =
  Request url ::
  match urlopen url a with
  | Ok _ => []
  | reply =>
      if a <? K - 1
      then Sleep (spec_delay B (a + 1) reply) ::
           timeline (trace (attempts ip url K B v rest))
      else []
  end.
Proof.
  cbn [attempts]. unfold spec_delay. rewrite Z.add_simpl_r.
  destruct (urlopen url a) as [data|code reason|msg];
    destruct (a <? K - 1); try destruct (code =? 429); destruct v; reflexivity.
Qed.

Lemma sleeps_timeline t : sleeps (timeline t) = sleeps t.
Proof. induction t as [|[] t IH]; simpl; congruence. Qed.



Lemma attempts_shape ip url K B v rounds d :
  value (attempts ip url K B v rounds) = Some d →
  (∃ data a, d = success_outcome ip data a) ∨
  (∃ error a, d = failure_outcome ip error a).
Proof.
  induction rounds as [|a rest IH]; [done|].
  rewrite attempts_step_value.
  destruct (urlopen url a) as [data|code reason|msg]; [|destruct (a <? K - 1)..];
    intros ?; simplify_eq; eauto.
Qed.

Lemma attempts_returns ip url K B v (n : nat) : ∀ a,
  a + Z.of_nat n = K - 1 →
  is_Some (value (attempts ip url K B v (seqZ a (Z.of_nat (S n))))).
Proof.
  induction n as [|n IH]; intros a Ha;
    rewrite seqZ_cons by lia; rewrite attempts_step_value.
  - replace (a <? K - 1) with false by lia. by destruct (urlopen url a).
  - replace (a <? K - 1) with true by lia.
    replace (Z.pred (Z.of_nat (S (S n)))) with (Z.of_nat (S n)) by lia.
    destruct (urlopen url a); [done|apply IH; lia..].
Qed.

Lemma range_rounds K : 1 ≤ K →
  ∃ n : nat, 0 + Z.of_nat n = K - 1 ∧ range K = seqZ 0 (Z.of_nat (S n)).
Proof.
  intros HK. exists (Z.to_nat (K - 1)). split; [lia|].
  unfold range. f_equal. lia.
Qed.

Lemma success_outcome_fields ip data a :
  success_outcome ip data a !! "success" = Some (VBool true) ∧
  success_outcome ip data a !! "data" = Some (VJson data) ∧
  success_outcome ip data a !! "error" = None ∧
  dict_truthy (success_outcome ip data a) = true.
Proof. repeat split; reflexivity. Qed.

Lemma failure_outcome_fields ip error a :
  failure_outcome ip error a !! "success" = Some (VBool false) ∧
  failure_outcome ip error a !! "data" = None ∧
  failure_outcome ip error a !! "error" = Some (VStr error) ∧
  dict_truthy (failure_outcome ip error a) = true.
Proof. repeat split; reflexivity. Qed.

(** What a returned dictionary looks like to the collecting loop. *)
Lemma attempts_wellformed ip url K B v rounds d :
  value (attempts ip url K B v rounds) = Some d →
  dict_truthy d = true ∧ ∃ b, d !! "success" = Some (VBool b).
Proof.
  intros [(data & a & ->)|(error & a & ->)]%attempts_shape.
  - split; [apply success_outcome_fields|]. exists true. apply success_outcome_fields.
  - split; [apply failure_outcome_fields|]. exists false. apply failure_outcome_fields.
Qed.



(** C3: every dictionary the check worker returns carries exactly one of
    the payload and the error description: ['data'] is present exactly
    when ['success'] is true, ['error'] exactly when ['success'] is false,
    and one of the two keys is present exactly when the other is absent. *)
Theorem outcome_payload_xor_error ip K B v d :
  value (check_ip_proxycheck ip K B v) = Some d →
  (is_Some (d !! "data") ↔ d !! "success" = Some (VBool true)) ∧
  (is_Some (d !! "error") ↔ d !! "success" = Some (VBool false)) ∧
  (is_Some (d !! "data") ↔ ¬ is_Some (d !! "error")).
Proof.
  intros [(data & a & ->)|(error & a & ->)]%attempts_shape.
  - destruct (success_outcome_fields ip data a) as (-> & -> & -> & _).
    presence.
  - destruct (failure_outcome_fields ip error a) as (-> & -> & -> & _).
    presence.
Qed.




(** Outside the precondition of C6 the loop body never runs. *)
Example no_rounds_returns_None ip B v :
  value (check_ip_proxycheck ip 0 B v) = None.
Proof. reflexivity. Qed.

End WorkerProperties.

(** ** The target provider *)

Section ProviderProperties.
Context `{W : World}.

Lemma all_octets_true parts :
  all_octets parts = Some true →
  Forall (λ p, ∃ n, py_int p = Some n ∧ 0 ≤ n ≤ 255) parts.
Proof.
  induction parts as [|p ps IH]; cbn; [constructor|].
  destruct (py_int p) as [n|] eqn:Hn; cbn; [|done].
  destruct (0 <=? n) eqn:Hlo; destruct (n <=? 255) eqn:Hhi; cbn; try done.
  intros H. constructor; [|by apply IH]. exists n. split; [done|lia].
Qed.

Lemma scan_row_accepts ips row ips' :
  scan_row ips row = Some ips' →
  set_Forall dotted_quad ips → set_Forall dotted_quad ips'.
Proof.
  unfold scan_row. destruct (row_get row "Ip" "") as [cell|]; cbn; [|done].
  intros [= <-] Hips.
  match goal with |- context [py_contains _ ?s] => generalize s end. intros ip.
  destruct (negb (String.eqb ip "") && py_contains "." ip); [|done].
  destruct (length (py_split "." ip) =? 4)%nat eqn:Hlen; [|done].
  destruct (all_octets (py_split "." ip)) as [[]|] eqn:Hall; try done.
  apply set_Forall_union; [|done]. apply set_Forall_singleton.
  split; [by apply Nat.eqb_eq|by apply all_octets_true].
Qed.

Lemma scan_rows_accepts rows : ∀ ips ips',
  scan_rows ips rows = Some ips' →
  set_Forall dotted_quad ips → set_Forall dotted_quad ips'.
Proof.
  induction rows as [|row rest IH]; intros ips ips'; cbn.
  - by intros [= <-].
  - destruct (scan_row ips row) as [mid|] eqn:Hrow; cbn; [|done].
    intros Hrest Hips. eapply IH; [done|]. by eapply scan_row_accepts.
Qed.

Lemma sorted_elements (ips : gset string) :
  set_Forall dotted_quad ips →
  NoDup (sorted (elements ips)) ∧
  StronglySorted String.le (sorted (elements ips)) ∧
  Forall dotted_quad (sorted (elements ips)).
Proof.
  intros Hips. unfold sorted. split_and!.
  - rewrite merge_sort_Permutation. apply NoDup_elements.
  - apply StronglySorted_merge_sort; apply _.
  - rewrite merge_sort_Permutation. apply Forall_forall.
    intros ip Hip. apply Hips. by apply elem_of_elements.
Qed.

Lemma load_ips_properties filename :
  NoDup (load_ips_from_csv filename) ∧
  StronglySorted String.le (load_ips_from_csv filename) ∧
  Forall dotted_quad (load_ips_from_csv filename).
Proof.
  unfold load_ips_from_csv, load_ips_try.
  destruct (open_readlines filename) as [lines|]; cbn;
    [|by split_and!; constructor].
  destruct (DictReader (skip_sep lines)) as [rows|]; cbn;
    [|by split_and!; constructor].
  destruct (scan_rows ∅ rows) as [ips|] eqn:Hscan; cbn;
    [|by split_and!; constructor].
  apply sorted_elements. eapply scan_rows_accepts; [done|].
  apply set_Forall_empty.
Qed.

Lemma load_ips_unreadable filename :
  open_readlines filename = None → load_ips_from_csv filename = [].
Proof. unfold load_ips_from_csv, load_ips_try. by intros ->. Qed.

(** C8: every list the provider returns has no duplicates, is sorted in
    ascending order, and consists of strings made of four dot-separated
    pieces, each read by [int] as a number from 0 to 255. *)
Theorem provider_list_wellformed filename :
  NoDup (load_ips_from_csv filename) ∧
  StronglySorted String.le (load_ips_from_csv filename) ∧
  Forall dotted_quad (load_ips_from_csv filename).
Proof. apply load_ips_properties. Qed.

End ProviderProperties.

(** ** The collecting loop and main *)

Lemma collect_one_lookup_ne use_tqdm g f k :
  k ≠ fut_ip f →
  results (collect_one use_tqdm g f).1 !! k = results g !! k.
Proof.
  intros Hk. unfold collect_one, on_exception.
  destruct (fut_result f) as [[d|]|text]; cbn; try done.
  destruct (dict_truthy d); [|done].
  destruct (d !! "success") as [flag|]; cbn; [destruct (truthy flag)|]; cbn;
    by rewrite lookup_insert_ne.
Qed.

Lemma collect_lookup_ne use_tqdm fs : ∀ g k,
  k ∉ fut_ip <$> fs →
  results (collect use_tqdm g fs).1 !! k = results g !! k.
Proof.
  induction fs as [|f fs IH]; intros g k Hk; [done|].
  cbn in *. apply not_elem_of_cons in Hk as [Hf Hfs].
  rewrite IH by done. by apply collect_one_lookup_ne.
Qed.

(** The display does not take part in the bookkeeping. *)
Lemma collect_one_display g f :
  (collect_one true g f).1 = (collect_one false g f).1 ∧
  assignments (collect_one true g f).2 = assignments (collect_one false g f).2.
Proof.
  unfold collect_one, on_exception.
  destruct (fut_result f) as [[d|]|text]; cbn; try done.
  destruct (dict_truthy d); [|done].
  by destruct (d !! "success") as [flag|].
Qed.

Lemma assignments_app j1 j2 :
  assignments (j1 ++ j2) = assignments j1 ++ assignments j2.
Proof. apply omap_app. Qed.

Lemma collect_display fs : ∀ g,
  (collect true g fs).1 = (collect false g fs).1 ∧
  assignments (collect true g fs).2 = assignments (collect false g fs).2.
Proof.
  induction fs as [|f fs IH]; intros g; [done|]. cbn.
  destruct (collect_one_display g f) as [-> Ha].
  destruct (IH (collect_one false g f).1) as [-> Hb].
  split; [done|]. by rewrite !assignments_app, Ha, Hb.
Qed.

(** The loop over futures that are all well formed. *)
Lemma collect_wellformed use_tqdm fs : ∀ g,
  Forall wellformed fs →
  let r := collect use_tqdm g fs in
  processed_count r.1 + error_count r.1 =
    processed_count g + error_count g + Z.of_nat (length fs) ∧
  dom (results r.1) = dom (results g) ∪ list_to_set (fut_ip <$> fs) ∧
  assignments r.2 = fut_ip <$> fs.
Proof.
  induction fs as [|f fs IH]; intros g Hfs.
  - cbn. split_and!; [lia|set_solver|done].
  - apply Forall_cons in Hfs as [(d & b & Hres & Ht & Hb) Hfs].
    destruct f as [ip res]; cbn in Hres; subst res.
    destruct (collect_one_stores use_tqdm g ip d b Ht Hb) as (Hr & Hp & He & Ha).
    specialize (IH (collect_one use_tqdm g
                      {| fut_ip := ip; fut_result := Returned (Some d) |}).1 Hfs).
    destruct IH as (IHc & IHd & IHa). cbn [collect fst snd length fmap list_fmap].
    split_and!.
    + rewrite IHc, Hp, He. destruct b; lia.
    + rewrite IHd, Hr, dom_insert_L. cbn. set_solver.
    + by rewrite assignments_app, Ha, IHa.
Qed.

Lemma collect_lookup use_tqdm fs : ∀ g,
  NoDup (fut_ip <$> fs) →
  Forall wellformed fs →
  Forall (λ f, fut_result f =
               Returned (results (collect use_tqdm g fs).1 !! fut_ip f)) fs.
Proof.
  induction fs as [|f fs IH]; intros g Hnd Hfs; [constructor|].
  cbn in Hnd. apply NoDup_cons in Hnd as [Hf Hnd].
  apply Forall_cons in Hfs as [(d & b & Hres & Ht & Hb) Hfs].
  constructor; [|by apply IH]. cbn.
  rewrite collect_lookup_ne by done.
  destruct f as [ip res]; cbn in *; subst res.
  destruct (collect_one_stores use_tqdm g ip d b Ht Hb) as (-> & _).
  by rewrite lookup_insert_eq.
Qed.

Section MainProperties.
Context `{W : World}.

Lemma check_ip_default_wellformed ip :
  ∃ d b, value (check_ip_default ip) = Some d ∧
         dict_truthy d = true ∧ d !! "success" = Some (VBool b).
Proof.
  destruct (attempts_returns ip (request_url ip) 3 2 false 2 0 eq_refl) as [d Hd].
  destruct (attempts_wellformed _ _ _ _ _ _ _ Hd) as [Ht [b Hb]].
  by exists d, b.
Qed.

Lemma submit_all_ips ips : fut_ip <$> submit_all ips = ips.
Proof. unfold submit_all. induction ips; cbn; by f_equal. Qed.

Lemma submit_all_wellformed ips : Forall wellformed (submit_all ips).
Proof.
  unfold submit_all. apply Forall_fmap, Forall_forall. intros ip _.
  destruct (check_ip_default_wellformed ip) as (d & b & Hd & Ht & Hb).
  exists d, b. cbn. by rewrite Hd.
Qed.

(** Everything the statements about a batch need, for targets without
    repetition and a completion order that yields each future once. *)
Lemma run_batch_facts use_tqdm input_file output_file ips :
  NoDup ips →
  as_completed (submit_all ips) ≡ₚ submit_all ips →
  let run := run_batch use_tqdm input_file output_file ips in
  processed_count (final run) + error_count (final run) = Z.of_nat (length ips) ∧
  dom (results (final run)) = list_to_set ips ∧
  size (results (final run)) = length ips ∧
  assignments (journal run) ≡ₚ ips ∧
  Forall (λ ip, results (final run) !! ip = value (check_ip_default ip)) ips.
Proof.
  intros Hnd Hperm run. subst run. unfold run_batch; cbn [final journal].
  set (fs := as_completed (submit_all ips)) in *.
  assert (Hips : fut_ip <$> fs ≡ₚ ips).
  { transitivity (fut_ip <$> submit_all ips);
      [by apply fmap_Permutation|by rewrite submit_all_ips]. }
  assert (Hwf : Forall wellformed fs).
  { rewrite Hperm. apply submit_all_wellformed. }
  assert (Hnd' : NoDup (fut_ip <$> fs)) by by rewrite Hips.
  destruct (collect_wellformed use_tqdm fs initial_globals Hwf) as (Hc & Hd & Ha).
  pose proof (collect_lookup use_tqdm fs initial_globals Hnd' Hwf) as Hl.
  cbn in Hc, Hd.
  assert (Hdom : dom (results (collect use_tqdm initial_globals fs).1)
                 = list_to_set ips).
  { rewrite Hd, dom_empty_L, Hips. set_solver. }
  split_and!.
  - rewrite Hc. f_equal. by rewrite <- Hips, length_fmap.
  - done.
  - by rewrite <- size_dom, Hdom, size_list_to_set.
  - by rewrite Ha.
  - rewrite Hperm in Hl. unfold submit_all in Hl.
    apply Forall_fmap in Hl. eapply Forall_impl; [exact Hl|].
    cbn. intros ip [= Hip]. done.
Qed.

(** C1: when a run completes, the counters written to the metadata add
    up to the number of entries of the results map, and that number is
    the number of targets the provider supplied. *)
Theorem counters_match_results file data :
  (∀ fs, as_completed fs ≡ₚ fs) →
  written main = Some (file, data) →
  successful (metadata data) + failed (metadata data)
    = Z.of_nat (size (output_results data)) ∧
  Z.of_nat (size (output_results data)) = total_ips (metadata data).
Proof.
  intros Hperm. unfold main.
  destruct argv as [|prog [|input_file rest]]; [done..|].
  pose proof (load_ips_properties input_file) as (Hnd & _).
  destruct (load_ips_from_csv input_file) as [|ip ips] eqn:Hload; [done|].
  set (out := match rest with out :: _ => out | [] => _ end).
  destruct (run_batch_facts tqdm_installed input_file out (ip :: ips) Hnd
              (Hperm _)) as (Hc & _ & Hs & _).
  unfold run_batch in *. cbn [final written] in *.
  set (r := collect _ _ _) in *. clearbody r.
  intros [= <- <-]. cbn. by rewrite Hc, Hs.
Qed.

(** C2: whatever the replies of the upstream service, the run assigns
    each target of the provider's list once (the assigned keys are a
    rearrangement of the duplicate-free list), the keys of the final
    results map are the targets, and the entry of each target is the
    dictionary its worker returned. *)
Theorem one_outcome_per_target prog input_file rest :
  argv = prog :: input_file :: rest →
  (∀ fs, as_completed fs ≡ₚ fs) →
  let ips := load_ips_from_csv input_file in
  assignments (journal main) ≡ₚ ips ∧
  NoDup (assignments (journal main)) ∧
  dom (results (final main)) = list_to_set ips ∧
  Forall (λ ip, is_Some (results (final main) !! ip) ∧
                results (final main) !! ip = value (check_ip_default ip)) ips.
Proof.
  intros Hargv Hperm ips. subst ips. unfold main. rewrite Hargv.
  pose proof (load_ips_properties input_file) as (Hnd & _).
  destruct (load_ips_from_csv input_file) as [|ip ips] eqn:Hload.
  { cbn. split_and!; [done|constructor|set_solver|constructor]. }
  set (out := match rest with out :: _ => out | [] => _ end).
  destruct (run_batch_facts tqdm_installed input_file out (ip :: ips) Hnd
              (Hperm _)) as (_ & Hd & _ & Ha & Hl).
  split_and!; [done|by rewrite Ha|done|].
  eapply Forall_impl; [exact Hl|]. cbn beta. intros t Ht. split; [|done].
  rewrite Ht. destruct (check_ip_default_wellformed t) as (d & _ & -> & _). eauto.
Qed.

(** C7: a run given an input file ends with exit status 1 and writes no
    output file when the input cannot be read or yields no target; when
    the provider yields a target the run ends with exit status 0 and the
    output written, whatever the workers' replies were. *)
Theorem exit_status prog input_file rest :
  argv = prog :: input_file :: rest →
  (open_readlines input_file = None → load_ips_from_csv input_file = []) ∧
  (load_ips_from_csv input_file = [] →
     exit_code main = 1 ∧ written main = None) ∧
  (load_ips_from_csv input_file ≠ [] →
     exit_code main = 0 ∧ is_Some (written main)).
Proof.
  intros Hargv. unfold main. rewrite Hargv. split_and!.
  - apply load_ips_unreadable.
  - by intros ->.
  - destruct (load_ips_from_csv input_file); [done|]. cbn. eauto.
Qed.

(** Without an input file on the command line the program prints its
    usage and leaves with exit status 1. *)
Example usage_exit prog : argv = [prog] → exit_code main = 1 ∧ written main = None.
Proof. unfold main. by intros ->. Qed.

End MainProperties.

(** ** The two displays *)

Section Displays.
Context (W : World).

Lemma run_batch_display input_file output_file ips :
  let rich := run_batch true input_file output_file ips in
  let plain := run_batch false input_file output_file ips in
  final rich = final plain ∧ written rich = written plain ∧
  exit_code rich = exit_code plain ∧
  assignments (journal rich) = assignments (journal plain).
Proof.
  unfold run_batch; cbn [final written exit_code journal].
  destruct (collect_display (as_completed (submit_all ips)) initial_globals)
    as [-> ->]. done.
Qed.

(** C9: the run with the progress bar and the run with the plain
    line-per-event display, in worlds that differ in nothing but the
    availability of tqdm, end with the same results map and counters, hand
    the same output structure to the writer, leave with the same exit
    status and perform the same assignments. *)
Theorem displays_interchangeable :
  let rich := @main (with_tqdm true W) in
  let plain := @main (with_tqdm false W) in
  final rich = final plain ∧
  written rich = written plain ∧
  exit_code rich = exit_code plain ∧
  assignments (journal rich) = assignments (journal plain).
Proof.
  unfold main. cbn [argv with_tqdm tqdm_installed].
  destruct (@argv W) as [|prog [|input_file rest]]; [done..|].
  change (@load_ips_from_csv (with_tqdm true W) input_file)
    with (@load_ips_from_csv W input_file).
  change (@load_ips_from_csv (with_tqdm false W) input_file)
    with (@load_ips_from_csv W input_file).
  destruct (@load_ips_from_csv W input_file) as [|ip ips]; [done|].
  apply (@run_batch_display).
Qed.

End Displays.

(** ** logger.py *)

Section LoggerProperties.
Context `{W : World}.

Lemma get_ip_success check_id : get_ip check_id !! "success" = Some (VBool true).
Proof.
  unfold get_ip. destruct (iplogger_open check_id) as [body|]; [|done].
  cbn zeta. destruct (first_address _); [done|]. by destruct (py_split _ _).
Qed.

Lemma harvest_fold completed : ∀ acc : list Dict * Z,
  let r := foldl (λ acc check_id, (acc.1 ++ [get_ip check_id], acc.2 + 1))
                 acc completed in
  r.1 = acc.1 ++ (get_ip <$> completed) ∧
  r.2 = acc.2 + Z.of_nat (length completed).
Proof.
  induction completed as [|c cs IH]; intros acc; cbn.
  - split; [by rewrite app_nil_r|lia].
  - destruct (IH (acc.1 ++ [get_ip c], acc.2 + 1)) as [-> ->]; cbn.
    split; [by rewrite <- app_assoc|lia].
Qed.

(** C10: [get_ip] returns, for every check id, a record whose ['success']
    is true; when the request raises, the record has ['ip'] equal to
    ['logged']; so every record the harvesting loop collects is a success
    and its success counter equals the number of records. *)
Theorem get_ip_always_success check_id :
  get_ip check_id !! "success" = Some (VBool true) ∧
  (iplogger_open check_id = None →
     get_ip check_id !! "ip" = Some (VStr "logged")) ∧
  (∀ completed,
     Forall (λ r, r !! "success" = Some (VBool true)) (harvest completed).1 ∧
     (harvest completed).2 = Z.of_nat (length (harvest completed).1)).
Proof.
  split_and!.
  - apply get_ip_success.
  - unfold get_ip. by intros ->.
  - intros completed. unfold harvest.
    destruct (harvest_fold completed ([], 0)) as [-> ->]. cbn.
    split; [|by rewrite length_fmap].
    apply Forall_fmap, Forall_forall. intros c _. apply get_ip_success.
Qed.

End LoggerProperties.

(** * The statements at concrete worlds *)

Module Witness.
Import Demo.

(** The export yields three targets, sorted, the repeated one once. *)
Example demo_targets :
  @load_ips_from_csv readable "export.csv" = ["1.2.3.4"; "8.8.8.8"; "9.9.9.9"].
Proof. vm_compute. reflexivity. Qed.

Lemma reverse_completion : ∀ fs : list Future, @as_completed readable fs ≡ₚ fs.
Proof. intros fs. apply reverse_Permutation. Defined.

Lemma counters_match_results_witness :
  ∃ data, written (@main readable) = Some ("proxycheck_results.json", data) ∧
          successful (metadata data) = 2 ∧ failed (metadata data) = 1 ∧
          successful (metadata data) + failed (metadata data)
            = Z.of_nat (size (output_results data)) ∧
          Z.of_nat (size (output_results data)) = total_ips (metadata data).
Proof.
  exists (@build_output readable "export.csv"
            (@load_ips_from_csv readable "export.csv") (final (@main readable))).
  assert (Hw : written (@main readable) = Some ("proxycheck_results.json",
            @build_output readable "export.csv"
              (@load_ips_from_csv readable "export.csv") (final (@main readable))))
    by (vm_compute; reflexivity).
  split; [exact Hw|].
  split; [vm_compute; reflexivity|]. split; [vm_compute; reflexivity|].
  exact (@counters_match_results readable _ _ reverse_completion Hw).
Defined.

Lemma one_outcome_per_target_witness :
  assignments (journal (@main readable)) = ["9.9.9.9"; "8.8.8.8"; "1.2.3.4"] ∧
  assignments (journal (@main readable)) ≡ₚ ["1.2.3.4"; "8.8.8.8"; "9.9.9.9"] ∧
  NoDup (assignments (journal (@main readable))) ∧
  results (final (@main readable)) !! "9.9.9.9"
    = value (@check_ip_default readable "9.9.9.9").
Proof.
  destruct (@one_outcome_per_target readable "proxycheck.py" "export.csv" []
              eq_refl reverse_completion) as (Hp & Hn & _ & Hl).
  rewrite demo_targets in Hp, Hl.
  split; [vm_compute; reflexivity|]. split; [exact Hp|]. split; [exact Hn|].
  apply Forall_inv_tail, Forall_inv_tail, Forall_inv in Hl. exact (proj2 Hl).
Defined.

Lemma outcome_payload_xor_error_witness :
  value (@check_ip_proxycheck readable "9.9.9.9" 3 2 false)
    = Some (@failure_outcome readable "9.9.9.9" "HTTP 429: Too Many Requests" 2) ∧
  let d := @failure_outcome readable "9.9.9.9" "HTTP 429: Too Many Requests" 2 in
  (is_Some (d !! "data") ↔ d !! "success" = Some (VBool true)) ∧
  (is_Some (d !! "error") ↔ d !! "success" = Some (VBool false)) ∧
  (is_Some (d !! "data") ↔ ¬ is_Some (d !! "error")).
Proof.
  assert (Hv : value (@check_ip_proxycheck readable "9.9.9.9" 3 2 false)
    = Some (@failure_outcome readable "9.9.9.9" "HTTP 429: Too Many Requests" 2))
    by (vm_compute; reflexivity).
  split; [exact Hv|].
  exact (@outcome_payload_xor_error readable "9.9.9.9" 3 2 false _ Hv).
Defined.




Lemma exit_status_witness :
  (exit_code (@main unreadable) = 1 ∧ written (@main unreadable) = None) ∧
  (exit_code (@main readable) = 0 ∧ is_Some (written (@main readable))).
Proof.
  destruct (@exit_status unreadable "proxycheck.py" "missing.csv" [] eq_refl)
    as (Hopen & Hempty & _).
  destruct (@exit_status readable "proxycheck.py" "export.csv" [] eq_refl)
    as (_ & _ & Hrun).
  split.
  - apply Hempty, Hopen. reflexivity.
  - apply Hrun. vm_compute. discriminate.
Defined.

Lemma get_ip_always_success_witness :
  @get_ip readable 2 !! "success" = Some (VBool true) ∧
  @get_ip readable 2 !! "ip" = Some (VStr "logged") ∧
  @get_ip readable 1 !! "ip" = Some (VStr "203.0.113.7") ∧
  (@harvest readable [2; 1]).2 = 2.
Proof.
  destruct (@get_ip_always_success readable 2) as (Hs & Hl & Hh).
  split; [exact Hs|]. split; [exact (Hl eq_refl)|].
  split; [vm_compute; reflexivity|].
  rewrite (proj2 (Hh [2; 1])). vm_compute. reflexivity.
Defined.

End Witness.

(** * Further properties of the check worker *)

Section WorkerBudget.
Context `{W : World}.







Lemma attempts_sleep_bound ip url K B v (n : nat) : ∀ a,
  0 ≤ B → 0 ≤ a → a + Z.of_nat n = K - 1 →
  let t := trace (attempts ip url K B v (seqZ a (Z.of_nat (S n)))) in
  Forall (λ d, B ≤ d ≤ B * 2 ^ (K - 2)) (sleeps t) ∧
  0 ≤ total_sleep t ≤ B * (2 ^ (K - 1) - 2 ^ a).
Proof.
  unfold total_sleep. cbn zeta.
  induction n as [|n IH]; intros a HB Ha0 Ha;
    rewrite <- sleeps_timeline;
    rewrite seqZ_cons by lia; rewrite attempts_step_timeline.
  - replace (a <? K - 1) with false by lia. replace (K - 1) with a by lia.
    destruct (urlopen url a); cbn; split; try constructor; lia.
  - replace (a <? K - 1) with true by lia.
    replace (Z.pred (Z.of_nat (S (S n)))) with (Z.of_nat (S n)) by lia.
    destruct (IH (Z.succ a)) as [Hall Hsum]; [lia..|].
    assert (Hpow : 2 ^ Z.succ a = 2 * 2 ^ a) by (by rewrite Z.pow_succ_r).
    assert (Hpos : 0 < 2 ^ a) by (apply Z.pow_pos_nonneg; lia).
    assert (Hmono : 2 ^ a ≤ 2 ^ (K - 2)) by (apply Z.pow_le_mono_r; lia).
    assert (Htop : 2 ^ (K - 1) = 2 * 2 ^ (K - 2)).
    { replace (K - 1) with (Z.succ (K - 2)) by lia. rewrite Z.pow_succ_r; lia. }
    rewrite Hpow in Hsum.
    destruct (urlopen url a) as [data|code reason|msg]; cbn.
    + split; [constructor|nia].
    + rewrite sleeps_timeline. rewrite Z.add_simpl_r.
      destruct (code =? 429); (split; [constructor; [nia|done]|nia]).
    + rewrite sleeps_timeline. split; [constructor; [nia|done]|nia].
Qed.

(** X4: for a non-negative base delay [B] and [K >= 1] attempts, every
    single sleep of the worker lies between [B] and [B * 2^(K-2)], and the
    time the worker spends sleeping in total is at most
    [B * (2^(K-1) - 1)], whatever the replies are. *)
Theorem total_backoff_bound ip K B v :
  0 ≤ B → 1 ≤ K →
  let t := trace (check_ip_proxycheck ip K B v) in
  Forall (λ d, B ≤ d ≤ B * 2 ^ (K - 2)) (sleeps t) ∧
  0 ≤ total_sleep t ≤ B * (2 ^ (K - 1) - 1).
Proof.
  intros HB HK t. subst t. destruct (range_rounds K HK) as (n & Hn & Hr).
  unfold check_ip_proxycheck. rewrite Hr.
  by apply (attempts_sleep_bound ip (request_url ip) K B v n 0).
Qed.



(** X6: with [max_retries <= 0] the loop body never runs: the worker
    makes no network call, prints nothing, sleeps never and returns
    [None]; the collecting loop then neither stores nor counts anything
    for that address. *)
Theorem no_attempts_no_outcome ip K B v :
  K ≤ 0 →
  check_ip_proxycheck ip K B v = (None, []) ∧
  ∀ use_tqdm g,
    collect_one use_tqdm g
      {| fut_ip := ip; fut_result := Returned (value (check_ip_proxycheck ip K B v)) |}
    = (g, []).
Proof.
  intros HK. unfold check_ip_proxycheck, range. rewrite seqZ_nil by done.
  split; [done|]. done.
Qed.

End WorkerBudget.

(** * Further properties of the target provider *)

Lemma py_split_no_sep c s : py_contains c s = false → py_split c s = [s].
Proof.
  induction s as [|a s IH]; [done|]. cbn.
  destruct (Ascii.eqb a c); [done|]. cbn. intros H. by rewrite IH.
Qed.

Lemma py_split_four_contains c s :
  length (py_split c s) = 4%nat → py_contains c s = true ∧ s ≠ "".
Proof.
  intros H. split.
  - destruct (py_contains c s) eqn:E; [done|].
    by rewrite py_split_no_sep in H.
  - by intros ->.
Qed.

Section ProviderCoverage.
Context `{W : World}.

Lemma all_octets_of_Forall parts :
  Forall (λ p, ∃ n, py_int p = Some n ∧ 0 ≤ n ≤ 255) parts →
  all_octets parts = Some true.
Proof.
  induction 1 as [|p ps (n & Hn & Hr) _ IH]; [done|]. cbn. rewrite Hn. cbn.
  replace (0 <=? n) with true by lia. replace (n <=? 255) with true by lia. done.
Qed.

Lemma dotted_quad_checks ip :
  dotted_quad ip ↔
  (length (py_split "." ip) =? 4)%nat = true ∧
  all_octets (py_split "." ip) = Some true.
Proof.
  unfold dotted_quad. rewrite Nat.eqb_eq. split; intros [Hl Ha]; split; try done.
  - by apply all_octets_of_Forall.
  - by apply all_octets_true.
Qed.

Lemma scan_row_elem ips row ips' :
  scan_row ips row = Some ips' →
  ∀ ip, ip ∈ ips' ↔
        ip ∈ ips ∨ ∃ cell, row_get row "Ip" "" = Some cell ∧
                           clean_cell cell = ip ∧ dotted_quad ip.
Proof.
  unfold scan_row. destruct (row_get row "Ip" "") as [cell|]; [|done].
  cbn [mbind option_bind]. cbn zeta.
  change (py_strip_chars [dquote] (py_strip cell)) with (clean_cell cell).
  remember (clean_cell cell) as c eqn:Hc. symmetry in Hc.
  intros [= <-] ip.
  assert (Hdq := dotted_quad_checks c).
  destruct (length (py_split "." c) =? 4)%nat eqn:Hlen.
  - destruct (py_split_four_contains "." c) as [-> Hne]; [by apply Nat.eqb_eq|].
    apply String.eqb_neq in Hne. rewrite Hne. cbn.
    destruct (all_octets (py_split "." c)) as [[]|] eqn:Hall.
    + rewrite elem_of_union, elem_of_singleton. split.
      * intros [->|?]; [right|by left]. exists cell. split_and!; try done. by apply Hdq.
      * intros [?|(cell' & [= <-] & <- & _)]; [by right|by left].
    + split; [by left|]. intros [?|(cell' & [= <-] & <- & Hq)]; [done|].
      rewrite Hc in Hq. apply Hdq in Hq as [_ ?]. congruence.
    + split; [by left|]. intros [?|(cell' & [= <-] & <- & Hq)]; [done|].
      rewrite Hc in Hq. apply Hdq in Hq as [_ ?]. congruence.
  - assert (Hout : (if negb (c =? "")%string && py_contains "." c
                    then ips else ips) = ips) by by destruct (_ && _).
    rewrite Hout. split; [by left|].
    intros [?|(cell' & [= <-] & <- & Hq)]; [done|].
    rewrite Hc in Hq. apply Hdq in Hq as [? _]. congruence.
Qed.

Lemma scan_rows_elem rows : ∀ ips ips',
  scan_rows ips rows = Some ips' →
  ∀ ip, ip ∈ ips' ↔
        ip ∈ ips ∨ ∃ row cell, row ∈ rows ∧ row_get row "Ip" "" = Some cell ∧
                               clean_cell cell = ip ∧ dotted_quad ip.
Proof.
  induction rows as [|row rest IH]; intros ips ips'; cbn.
  - intros [= <-] ip. split; [by left|]. intros [?|(? & ? & []%elem_of_nil & _)]; done.
  - destruct (scan_row ips row) as [mid|] eqn:Hrow; cbn; [|done].
    intros Hrest ip. rewrite (IH _ _ Hrest ip), (scan_row_elem _ _ _ Hrow ip).
    split.
    + intros [[?|(cell & ?)]|(r & cell & Hr & ?)]; [by left|right..].
      * exists row, cell. split; [left|done].
      * exists r, cell. split; [by right|done].
    + intros [?|(r & cell & Hr & Hrest')]; [by left; left|].
      apply elem_of_cons in Hr as [->|Hr].
      * left; right. by exists cell.
      * right. by exists r, cell.
Qed.

Lemma scan_rows_raises rows : ∀ ips,
  scan_rows ips rows = None ↔ ∃ row, row ∈ rows ∧ row_get row "Ip" "" = None.
Proof.
  induction rows as [|row rest IH]; intros ips; cbn.
  - split; [done|]. by intros (? & []%elem_of_nil & _).
  - unfold scan_row at 1. destruct (row_get row "Ip" "") as [cell|] eqn:Hcell; cbn.
    + rewrite IH. split.
      * intros (r & Hr & Hn). exists r. split; [by right|done].
      * intros (r & [->|Hr]%elem_of_cons & Hn); [congruence|by exists r].
    + split; [|done]. intros _. exists row. split; [left|done].
Qed.

Lemma row_get_None (row : Row) : row_get row "Ip" "" = None ↔ row !! "Ip" = Some None.
Proof. unfold row_get. destruct (row !! "Ip") as [[]|]; naive_solver. Qed.

(** X7: when the file can be read and no row has [None] under ['Ip'],
    the provider's list contains exactly the cleaned ['Ip'] cells that
    split into four numbers from 0 to 255: no such address is lost, and
    nothing else gets in. (The test [ip and '.' in ip] of the source never
    decides: four pieces imply a dot and a non-empty string.) *)
Theorem provider_membership filename lines rows :
  open_readlines filename = Some lines →
  DictReader (skip_sep lines) = Some rows →
  Forall (λ row : Row, row !! "Ip" ≠ Some None) rows →
  ∀ ip, ip ∈ load_ips_from_csv filename ↔
        ∃ row cell, row ∈ rows ∧ row_get row "Ip" "" = Some cell ∧
                    clean_cell cell = ip ∧ dotted_quad ip.
Proof.
  intros Hopen Hrows Hcells ip.
  unfold load_ips_from_csv, load_ips_try. rewrite Hopen. cbn. rewrite Hrows. cbn.
  destruct (scan_rows ∅ rows) as [ips|] eqn:Hscan; cbn.
  - unfold sorted. rewrite merge_sort_Permutation, elem_of_elements.
    rewrite (scan_rows_elem _ _ _ Hscan ip). set_solver.
  - apply scan_rows_raises in Hscan as (row & Hrow & Hnone%row_get_None).
    rewrite Forall_forall in Hcells. by destruct (Hcells row Hrow).
Qed.

Lemma fill_restval_lookup keys : ∀ (d : Row) key,
  fill_restval keys d !! key = if decide (key ∈ keys) then Some None else d !! key.
Proof.
  unfold fill_restval. induction keys as [|k ks IH]; intros d key; cbn; [done|].
  rewrite IH. destruct (decide (key ∈ ks)) as [Hin|Hin].
  - rewrite decide_True; [done|by right].
  - destruct (decide (key = k)) as [->|Hne].
    + rewrite decide_True by left. by rewrite lookup_insert_eq.
    + rewrite decide_False by (by intros [?|?]%elem_of_cons).
      by rewrite lookup_insert_ne.
Qed.

Lemma dict_zip_lookup_absent fieldnames row key :
  key ∉ fieldnames → dict_zip fieldnames row !! key = None.
Proof.
  unfold dict_zip. intros Hkey.
  assert (Hgen : ∀ l (d : Row), key ∉ l.*1 → d !! key = None →
            foldl (λ d kv, <[kv.1 := Some kv.2]> d) d l !! key = None).
  { induction l as [|[k v] l IH]; intros d Hl Hd; cbn in *; [done|].
    apply not_elem_of_cons in Hl as [Hk Hl]. apply IH; [done|].
    by rewrite lookup_insert_ne. }
  apply Hgen; [|done]. intros Hin. apply Hkey.
  apply list_elem_of_fmap in Hin as ([k v] & -> & Hin).
  by apply elem_of_zip_l in Hin.
Qed.

Lemma make_row_short fieldnames row :
  "Ip" ∈ drop (length row) fieldnames → make_row fieldnames row !! "Ip" = Some None.
Proof. intros H. unfold make_row. rewrite fill_restval_lookup. by rewrite decide_True. Qed.

Lemma make_row_no_column fieldnames row :
  "Ip" ∉ fieldnames → make_row fieldnames row !! "Ip" = None.
Proof.
  intros H. unfold make_row. rewrite fill_restval_lookup.
  rewrite decide_False; [by apply dict_zip_lookup_absent|].
  intros Hin. apply H. by eapply subseteq_drop.
Qed.

(** X8: one data row that ends before the ['Ip'] column empties the whole
    result. [DictReader] fills the missing cell with [None], [.strip()]
    on it raises, and the handler returns the empty list, so the valid
    addresses of all other rows are lost as well. *)
Theorem short_row_empties_result filename lines fieldnames rest row :
  open_readlines filename = Some lines →
  csv_reader (skip_sep lines) = Some (fieldnames :: rest) →
  row ∈ rest → row ≠ [] →
  "Ip" ∈ drop (length row) fieldnames →
  load_ips_from_csv filename = [].
Proof.
  intros Hopen Hcsv Hrow Hne Hshort.
  unfold load_ips_from_csv, load_ips_try, DictReader.
  rewrite Hopen. cbn. rewrite Hcsv. cbn.
  assert (Hscan : scan_rows ∅ (make_row fieldnames <$> filter (λ r, r ≠ []) rest) = None).
  { apply scan_rows_raises. exists (make_row fieldnames row). split.
    - apply list_elem_of_fmap. exists row. split; [done|]. by apply list_elem_of_filter.
    - apply row_get_None. by apply make_row_short. }
  by rewrite Hscan.
Qed.

(** X9: when the header row has no column named exactly ['Ip'], the
    provider returns the empty list, whatever the data rows hold. *)
Theorem no_ip_column_no_targets filename lines fieldnames rest :
  open_readlines filename = Some lines →
  csv_reader (skip_sep lines) = Some (fieldnames :: rest) →
  "Ip" ∉ fieldnames →
  load_ips_from_csv filename = [].
Proof.
  intros Hopen Hcsv Hcol.
  unfold load_ips_from_csv, load_ips_try, DictReader.
  rewrite Hopen. cbn. rewrite Hcsv. cbn.
  assert (Hscan : ∀ rows, scan_rows ∅ (make_row fieldnames <$> rows) = Some ∅).
  { induction rows as [|r rows IH]; [done|]. cbn.
    unfold scan_row at 1, row_get. rewrite make_row_no_column by done. cbn.
    exact IH. }
  rewrite Hscan. reflexivity.
Qed.

(** X10: the provider's list does not depend on the order of the data
    rows: two files with the same header whose data rows are
    rearrangements of each other give the same list. *)
Theorem row_order_irrelevant file1 file2 lines1 lines2 fieldnames rest1 rest2 :
  open_readlines file1 = Some lines1 →
  open_readlines file2 = Some lines2 →
  csv_reader (skip_sep lines1) = Some (fieldnames :: rest1) →
  csv_reader (skip_sep lines2) = Some (fieldnames :: rest2) →
  rest1 ≡ₚ rest2 →
  load_ips_from_csv file1 = load_ips_from_csv file2.
Proof.
  intros Ho1 Ho2 Hc1 Hc2 Hperm.
  unfold load_ips_from_csv, load_ips_try, DictReader.
  rewrite Ho1, Ho2. cbn. rewrite Hc1, Hc2. cbn.
  set (rows1 := make_row fieldnames <$> filter (λ r, r ≠ []) rest1).
  set (rows2 := make_row fieldnames <$> filter (λ r, r ≠ []) rest2).
  assert (Hrows : rows1 ≡ₚ rows2) by (subst rows1 rows2; by rewrite Hperm).
  destruct (scan_rows ∅ rows1) as [ips1|] eqn:H1;
    destruct (scan_rows ∅ rows2) as [ips2|] eqn:H2; cbn.
  - f_equal. f_equal. apply set_eq. intros ip.
    rewrite (scan_rows_elem _ _ _ H1 ip), (scan_rows_elem _ _ _ H2 ip).
    by setoid_rewrite Hrows.
  - apply scan_rows_raises in H2 as (row & Hrow & Hnone).
    assert (scan_rows ∅ rows1 = None); [|congruence].
    apply scan_rows_raises. exists row. by rewrite Hrows.
  - apply scan_rows_raises in H1 as (row & Hrow & Hnone).
    assert (scan_rows ∅ rows2 = None); [|congruence].
    apply scan_rows_raises. exists row. by rewrite <- Hrows.
  - done.
Qed.

End ProviderCoverage.

(** * Further properties of the collecting loop and main *)

Lemma collect_one_contribute use_tqdm g f :
  (collect_one use_tqdm g f).1 = contribute f g.
Proof.
  unfold collect_one, contribute, contribution, on_exception.
  destruct g as [res p e].
  destruct (fut_result f) as [[d|]|text]; cbn; rewrite ?Z.add_0_r; try done.
  destruct (dict_truthy d); cbn; rewrite ?Z.add_0_r; [|done].
  destruct (d !! "success") as [flag|]; cbn; rewrite ?Z.add_0_r; [|done].
  destruct (truthy flag); cbn; by rewrite ?Z.add_0_r.
Qed.

Lemma contribution_range f :
  0 ≤ (contribution f).1.2 ∧ 0 ≤ (contribution f).2 ∧
  (contribution f).1.2 + (contribution f).2 ≤ 1 ∧
  ((contribution f).1.1 = None ∨
   (contribution f).1.2 + (contribution f).2 = 1).
Proof.
  unfold contribution. destruct (fut_result f) as [[d|]|text]; cbn.
  2,3: split_and!; try lia; by left.
  destruct (dict_truthy d); cbn; [|split_and!; try lia; by left].
  destruct (d !! "success") as [flag|]; cbn; [destruct (truthy flag); cbn|];
    split_and!; try lia; right; lia.
Qed.

Lemma contribute_comm f1 f2 g :
  fut_ip f1 ≠ fut_ip f2 →
  contribute f1 (contribute f2 g) = contribute f2 (contribute f1 g).
Proof.
  intros Hne. unfold contribute. cbn. f_equal; [|lia..].
  destruct (contribution f1).1.1, (contribution f2).1.1; try done.
  by apply insert_insert_ne.
Qed.

Lemma collect_cons use_tqdm g f fs :
  (collect use_tqdm g (f :: fs)).1 = (collect use_tqdm (contribute f g) fs).1.
Proof. cbn. by rewrite collect_one_contribute. Qed.

Lemma collect_permutation use_tqdm fs1 fs2 :
  fs1 ≡ₚ fs2 → NoDup (fut_ip <$> fs1) →
  ∀ g, (collect use_tqdm g fs1).1 = (collect use_tqdm g fs2).1.
Proof.
  induction 1 as [|f fs1 fs2 Hp IH|f1 f2 fs|fs1 fs2 fs3 H12 IH12 H23 IH23];
    intros Hnd g.
  - done.
  - rewrite !collect_cons. apply IH. cbn in Hnd. by apply NoDup_cons in Hnd as [_ ?].
  - rewrite !collect_cons. rewrite (contribute_comm f1 f2); [done|].
    cbn in Hnd. apply NoDup_cons in Hnd as [Hin _]. set_solver.
  - rewrite IH12 by done. apply IH23. by rewrite <- H12.
Qed.

(** X11: for futures with pairwise distinct addresses, the final results
    map and both counters do not depend on the order in which the futures
    complete, whatever the futures hold (records, empty records, [None]
    or exceptions) and whichever display is in use. *)
Theorem completion_order_irrelevant use_tqdm g fs1 fs2 :
  fs1 ≡ₚ fs2 → NoDup (fut_ip <$> fs1) →
  (collect use_tqdm g fs1).1 = (collect use_tqdm g fs2).1.
Proof. intros Hp Hnd. by apply collect_permutation. Qed.

Lemma collect_bounds use_tqdm fs : ∀ g,
  let r := (collect use_tqdm g fs).1 in
  processed_count g ≤ processed_count r ∧
  error_count g ≤ error_count r ∧
  processed_count r + error_count r
    ≤ processed_count g + error_count g + Z.of_nat (length fs) ∧
  Z.of_nat (size (results r)) - Z.of_nat (size (results g))
    ≤ (processed_count r + error_count r) - (processed_count g + error_count g) ∧
  dom (results r) ⊆ dom (results g) ∪ list_to_set (fut_ip <$> fs).
Proof.
  induction fs as [|f fs IH]; intros g r; subst r.
  - cbn. split_and!; try lia. set_solver.
  - rewrite collect_cons. specialize (IH (contribute f g)).
    destruct IH as (IHp & IHe & IHs & IHz & IHd).
    pose proof (contribution_range f) as (Hp & He & Hs & Hstore).
    assert (Hsize : Z.of_nat (size (results (contribute f g)))
                    - Z.of_nat (size (results g))
                    ≤ (contribution f).1.2 + (contribution f).2).
    { unfold contribute; cbn. destruct Hstore as [->| ->]; [lia|].
      destruct (contribution f).1.1 as [d|]; [|lia].
      destruct (results g !! fut_ip f) eqn:Hl.
      - rewrite map_size_insert_Some by done. lia.
      - rewrite map_size_insert_None by done. lia. }
    assert (Hdom : dom (results (contribute f g))
                   ⊆ dom (results g) ∪ {[fut_ip f]}).
    { unfold contribute; cbn. destruct (contribution f).1.1;
        [rewrite dom_insert_L|]; set_solver. }
    assert (Hpc : processed_count (contribute f g)
                  = processed_count g + (contribution f).1.2) by done.
    assert (Hec : error_count (contribute f g)
                  = error_count g + (contribution f).2) by done.
    cbn [length fmap list_fmap].
    split_and!; [lia..|]. cbn. set_solver.
Qed.

(** X12: for any list of completed futures, whatever they hold, the
    collecting loop never decreases a counter, counts at most one per
    future, grows the results map by no more entries than it counts, and
    stores only under addresses of the futures it was given. *)
Theorem collecting_loop_bounds use_tqdm g fs :
  let r := (collect use_tqdm g fs).1 in
  processed_count g ≤ processed_count r ∧
  error_count g ≤ error_count r ∧
  processed_count r + error_count r
    ≤ processed_count g + error_count g + Z.of_nat (length fs) ∧
  Z.of_nat (size (results r)) - Z.of_nat (size (results g))
    ≤ (processed_count r + error_count r) - (processed_count g + error_count g) ∧
  dom (results r) ⊆ dom (results g) ∪ list_to_set (fut_ip <$> fs).
Proof. apply collect_bounds. Qed.

Section MainCounters.
Context `{W : World}.

Lemma contribution_submitted ip :
  contribution {| fut_ip := ip;
                  fut_result := Returned (value (check_ip_default ip)) |}
  = (value (check_ip_default ip),
     if succeeded ip then 1 else 0, if succeeded ip then 0 else 1).
Proof.
  unfold contribution, succeeded; cbn.
  destruct (check_ip_default_wellformed ip) as (d & b & -> & -> & ->).
  by destruct b.
Qed.

Lemma collect_submitted use_tqdm ips : ∀ g,
  let r := (collect use_tqdm g (submit_all ips)).1 in
  processed_count r = processed_count g
    + Z.of_nat (length (filter (λ ip, succeeded ip = true) ips)) ∧
  error_count r = error_count g
    + Z.of_nat (length (filter (λ ip, succeeded ip = false) ips)).
Proof.
  induction ips as [|ip ips IH]; intros g r; subst r.
  - cbn. lia.
  - unfold submit_all. cbn [fmap list_fmap]. rewrite collect_cons.
    fold (submit_all ips). destruct (IH (contribute
      {| fut_ip := ip; fut_result := Returned (value (check_ip_default ip)) |} g))
      as [-> ->].
    unfold contribute; cbn [processed_count error_count].
    rewrite contribution_submitted. cbn [fst snd].
    rewrite !filter_cons. destruct (succeeded ip); cbn.
    + rewrite decide_True by done. rewrite decide_False by done.
      cbn [length]. lia.
    + rewrite decide_False by done. rewrite decide_True by done.
      cbn [length]. lia.
Qed.

Lemma run_batch_counters use_tqdm input_file output_file ips :
  NoDup ips →
  as_completed (submit_all ips) ≡ₚ submit_all ips →
  let run := run_batch use_tqdm input_file output_file ips in
  processed_count (final run)
    = Z.of_nat (length (filter (λ ip, succeeded ip = true) ips)) ∧
  error_count (final run)
    = Z.of_nat (length (filter (λ ip, succeeded ip = false) ips)).
Proof.
  intros Hnd Hperm run. subst run. unfold run_batch; cbn [final].
  rewrite (collect_permutation use_tqdm _ _ Hperm).
  - apply (collect_submitted use_tqdm ips initial_globals).
  - rewrite Hperm, submit_all_ips. done.
Qed.

(** X13: the counters written to the metadata say how the workers ended:
    [successful] is the number of targets whose worker returned a success
    record and [failed] the number of the others, in any completion
    order. *)
Theorem counters_by_outcome prog input_file rest file data :
  argv = prog :: input_file :: rest →
  (∀ fs, as_completed fs ≡ₚ fs) →
  written main = Some (file, data) →
  let ips := load_ips_from_csv input_file in
  successful (metadata data)
    = Z.of_nat (length (filter (λ ip, succeeded ip = true) ips)) ∧
  failed (metadata data)
    = Z.of_nat (length (filter (λ ip, succeeded ip = false) ips)).
Proof.
  intros Hargv Hperm. unfold main. rewrite Hargv.
  pose proof (load_ips_properties input_file) as (Hnd & _).
  destruct (load_ips_from_csv input_file) as [|ip ips] eqn:Hload; [done|].
  set (out := match rest with out :: _ => out | [] => _ end).
  destruct (run_batch_counters tqdm_installed input_file out (ip :: ips) Hnd
              (Hperm _)) as (Hp & He).
  unfold run_batch in *. cbn [final written] in *.
  set (r := collect _ _ _) in *. clearbody r.
  intros [= <- <-]. cbn. by rewrite Hp, He.
Qed.

Lemma filter_all_length {A} (P : A → Prop) `{∀ x, Decision (P x)} (l : list A) :
  Forall P l → length (filter P l) = length l.
Proof.
  induction 1 as [|x l Hx _ IH]; [done|].
  rewrite filter_cons, decide_True by done. cbn. by rewrite IH.
Qed.

Lemma filter_none_length {A} (P : A → Prop) `{∀ x, Decision (P x)} (l : list A) :
  Forall (λ x, ¬ P x) l → length (filter P l) = 0%nat.
Proof.
  induction 1 as [|x l Hx _ IH]; [done|].
  by rewrite filter_cons, decide_False.
Qed.

Lemma succeeded_first_reply ip data :
  urlopen (request_url ip) 0 = Ok data → succeeded ip = true.
Proof.
  intros Hok. unfold succeeded, check_ip_default, check_ip_proxycheck.
  change (range 3) with [0; 1; 2]. rewrite attempts_step_value, Hok. done.
Qed.

(** X14: when the upstream service answers the first request of every
    target, the run reports all targets as successful and none as failed,
    and the entry of each target is the success record that carries the
    payload of that answer. *)
Theorem all_answered_all_successful prog input_file rest file data
    (payload : string → Json) :
  argv = prog :: input_file :: rest →
  (∀ fs, as_completed fs ≡ₚ fs) →
  (∀ ip, urlopen (request_url ip) 0 = Ok (payload ip)) →
  written main = Some (file, data) →
  successful (metadata data) = total_ips (metadata data) ∧
  failed (metadata data) = 0 ∧
  Forall (λ ip, output_results data !! ip
                = Some (success_outcome ip (payload ip) 0))
         (load_ips_from_csv input_file).
Proof.
  intros Hargv Hperm Hok. unfold main. rewrite Hargv.
  pose proof (load_ips_properties input_file) as (Hnd & _).
  destruct (load_ips_from_csv input_file) as [|ip ips] eqn:Hload; [done|].
  set (out := match rest with out :: _ => out | [] => _ end).
  destruct (run_batch_counters tqdm_installed input_file out (ip :: ips) Hnd
              (Hperm _)) as (Hp & He).
  destruct (run_batch_facts tqdm_installed input_file out (ip :: ips) Hnd
              (Hperm _)) as (_ & _ & _ & _ & Hl).
  unfold run_batch in *. cbn [final written] in *.
  set (r := collect _ _ _) in *. clearbody r.
  intros [= <- <-]. cbn [build_output metadata output_results successful failed total_ips].
  rewrite Hp, He.
  rewrite filter_all_length, filter_none_length.
  - split_and!; [done..|]. eapply Forall_impl; [exact Hl|]. cbn beta.
    intros t ->. unfold check_ip_default, check_ip_proxycheck.
    change (range 3) with [0; 1; 2]. by rewrite attempts_step_value, Hok.
  - apply Forall_forall. intros t _. by erewrite succeeded_first_reply.
  - apply Forall_forall. intros t _. by eapply succeeded_first_reply.
Qed.

End MainCounters.

(** * Further properties of logger.py *)

Lemma py_split_nonempty c s : py_split c s ≠ [].
Proof.
  destruct s as [|a s]; [done|]. cbn.
  destruct (Ascii.eqb a c); [done|]. by destruct (py_split c s).
Qed.

Section LoggerCoverage.
Context `{W : World}.

Lemma first_address_found lines line :
  first_address lines = Some line →
  ∃ pre raw post, lines = pre ++ raw :: post ∧ py_strip raw = line ∧
                  dotted_quad line ∧
                  Forall (λ r, ¬ dotted_quad (py_strip r)) pre.
Proof.
  induction lines as [|raw rest IH]; [done|]. cbn.
  pose proof (dotted_quad_checks (py_strip raw)) as Hdq.
  destruct (length (py_split "." (py_strip raw)) =? 4)%nat eqn:Hlen;
    [destruct (all_octets (py_split "." (py_strip raw))) as [[]|] eqn:Hall|].
  - intros [= <-]. exists [], raw, rest. split_and!; [done..| |constructor].
    by apply Hdq.
  - intros (pre & r & post & -> & ? & ? & ?)%IH.
    exists (raw :: pre), r, post. split_and!; try done.
    constructor; [|done]. intros [_ ?]%Hdq. congruence.
  - intros (pre & r & post & -> & ? & ? & ?)%IH.
    exists (raw :: pre), r, post. split_and!; try done.
    constructor; [|done]. intros [_ ?]%Hdq. congruence.
  - intros (pre & r & post & -> & ? & ? & ?)%IH.
    exists (raw :: pre), r, post. split_and!; try done.
    constructor; [|done]. intros [? _]%Hdq. congruence.
Qed.

Lemma first_address_none lines :
  first_address lines = None →
  Forall (λ r, ¬ dotted_quad (py_strip r)) lines.
Proof.
  induction lines as [|raw rest IH]; [constructor|]. cbn.
  pose proof (dotted_quad_checks (py_strip raw)) as Hdq.
  destruct (length (py_split "." (py_strip raw)) =? 4)%nat eqn:Hlen;
    [destruct (all_octets (py_split "." (py_strip raw))) as [[]|] eqn:Hall|];
    [done|intros ?%IH; constructor; [|done]..].
  - intros [_ ?]%Hdq. congruence.
  - intros [_ ?]%Hdq. congruence.
  - intros [? _]%Hdq. congruence.
Qed.

(** X15: what [get_ip] reports. The record carries the check id it was
    called with, and a ['note'] exactly when the request raised. When a
    body arrived, ['ip'] is the stripped first line of the stripped body
    that is made of four numbers from 0 to 255, and the stripped first
    line if no line is. *)
Theorem get_ip_report check_id :
  get_ip check_id !! "id" = Some (VInt check_id) ∧
  (is_Some (get_ip check_id !! "note") ↔ iplogger_open check_id = None) ∧
  ∀ body, iplogger_open check_id = Some body →
    ∃ pre raw post,
      py_split "010" (py_strip body) = pre ++ raw :: post ∧
      get_ip check_id !! "ip" = Some (VStr (py_strip raw)) ∧
      Forall (λ r, ¬ dotted_quad (py_strip r)) pre ∧
      (dotted_quad (py_strip raw) ∨
       pre = [] ∧ Forall (λ r, ¬ dotted_quad (py_strip r)) (raw :: post)).
Proof.
  unfold get_ip. destruct (iplogger_open check_id) as [body|]; cbn zeta.
  - pose proof (py_split_nonempty "010" (py_strip body)) as Hne.
    destruct (first_address (py_split "010" (py_strip body))) as [line|] eqn:Hfirst.
    + split; [done|]. split; [split; [by intros []|done]|].
      intros ? [= <-].
      apply first_address_found in Hfirst as (pre & raw & post & Hl & <- & Hq & Hpre).
      exists pre, raw, post. split_and!; [done..|by left].
    + apply first_address_none in Hfirst.
      destruct (py_split "010" (py_strip body)) as [|first others] eqn:Hsplit;
        [done|].
      split; [done|]. split; [split; [by intros []|done]|].
      intros ? [= <-]. exists [], first, others. rewrite Hsplit.
      split_and!; [done|done|constructor|by right; split].
  - split; [done|]. split; [split; [done|by eexists]|]. done.
Qed.

Lemma tally_step_invariant acc r acc' seen :
  tally_step acc r = Some acc' →
  acc.1 = list_to_set seen →
  (∀ ip, default 0 (acc.2 !! ip) = Z.of_nat (length (filter (λ x, x = ip) seen))) →
  dom acc.2 = acc.1 →
  ∃ new, counted_ips [r] = new ∧
         acc'.1 = list_to_set (seen ++ new) ∧
         (∀ ip, default 0 (acc'.2 !! ip)
                = Z.of_nat (length (filter (λ x, x = ip) (seen ++ new)))) ∧
         dom acc'.2 = acc'.1.
Proof.
  unfold tally_step, counted_ips. cbn.
  destruct (shown_ip r) as [ip|]; cbn; [|done].
  intros [= <-] Hset Hcount Hdom.
  destruct (String.eqb_spec ip "logged") as [->|Hne]; cbn.
  - eexists; split; [done|]. by rewrite app_nil_r.
  - rewrite decide_True by done. eexists; split; [done|]. split_and!.
    + rewrite list_to_set_app_L, Hset. set_solver.
    + intros k. rewrite filter_app, length_app, filter_cons, filter_nil.
      destruct (decide (ip = k)) as [->|Hk].
      * rewrite lookup_insert_eq. cbn. rewrite Hcount. lia.
      * rewrite lookup_insert_ne by done. cbn. rewrite Hcount. lia.
    + rewrite dom_insert_L, Hdom. set_solver.
Qed.

Lemma counted_ips_app rs1 rs2 :
  counted_ips (rs1 ++ rs2) = counted_ips rs1 ++ counted_ips rs2.
Proof. unfold counted_ips. by rewrite omap_app, filter_app. Qed.

Lemma tally_from_invariant rs : ∀ acc seen,
  Forall (λ r, is_Some (shown_ip r)) rs →
  acc.1 = list_to_set seen →
  (∀ ip, default 0 (acc.2 !! ip) = Z.of_nat (length (filter (λ x, x = ip) seen))) →
  dom acc.2 = acc.1 →
  ∃ acc', tally_from acc rs = Some acc' ∧
          acc'.1 = list_to_set (seen ++ counted_ips rs) ∧
          (∀ ip, default 0 (acc'.2 !! ip)
                 = Z.of_nat (length (filter (λ x, x = ip) (seen ++ counted_ips rs)))) ∧
          dom acc'.2 = acc'.1.
Proof.
  induction rs as [|r rs IH]; intros acc seen Hall Hset Hcount Hdom.
  - exists acc. unfold counted_ips. cbn. rewrite ?filter_nil, ?app_nil_r. done.
  - apply Forall_cons in Hall as [[ip Hip] Hall]. cbn [tally_from].
    destruct (tally_step acc r) as [mid|] eqn:Hstep; cbn [mbind option_bind];
      [|unfold tally_step in Hstep; by rewrite Hip in Hstep].
    destruct (tally_step_invariant _ _ _ seen Hstep Hset Hcount Hdom)
      as (new & Hnew & Hs & Hc & Hd).
    destruct (IH mid (seen ++ new) Hall Hs Hc Hd) as (acc' & Ht & Hs' & Hc' & Hd').
    exists acc'. change (r :: rs) with ([r] ++ rs).
    rewrite (counted_ips_app [r] rs), Hnew, app_assoc. done.
Qed.

Lemma harvest_results completed :
  (harvest completed).1 = get_ip <$> completed ∧
  (harvest completed).2 = Z.of_nat (length completed).
Proof.
  unfold harvest. destruct (harvest_fold completed ([], 0)) as [-> ->]. done.
Qed.

Lemma get_ip_shows check_id : is_Some (shown_ip (get_ip check_id)).
Proof.
  unfold shown_ip, get_ip. destruct (iplogger_open check_id) as [body|]; [|by eexists].
  cbn zeta. destruct (first_address _); [by eexists|].
  destruct (py_split _ _); by eexists.
Qed.

Lemma omap_length_le {A B} (f : A → option B) (l : list A) :
  (length (omap f l) ≤ length l)%nat.
Proof. induction l as [|x l IH]; cbn; [done|]. destruct (f x); cbn; lia. Qed.

Lemma size_list_to_set_le (l : list string) :
  (size (list_to_set l : gset string) ≤ length l)%nat.
Proof.
  induction l as [|x l IH]; cbn; [by rewrite size_empty|].
  rewrite size_union_alt, size_singleton.
  assert (size (list_to_set l ∖ {[x]} : gset string) ≤ size (list_to_set l : gset string))%nat
    by (apply subseteq_size; set_solver).
  lia.
Qed.

(** X16: the statistics logger.py prints after harvesting. On the records
    of any harvest the counting loop runs through without a [KeyError];
    [unique_ips] is the set of reported addresses other than ['logged'],
    which is also the key set of [ip_counts]; [ip_counts] maps each
    address to the number of records that report it; and there are at
    most as many distinct addresses as counted successes, so that the
    printed diversity never exceeds 100 percent. *)
Theorem harvest_statistics completed :
  let rs := (harvest completed).1 in
  ∃ unique counts,
    tally rs = Some (unique, counts) ∧
    unique = list_to_set (counted_ips rs) ∧
    ("logged" ∉ unique) ∧
    dom counts = unique ∧
    (∀ ip, default 0 (counts !! ip)
           = Z.of_nat (length (filter (λ x, x = ip) (counted_ips rs)))) ∧
    Z.of_nat (size unique) ≤ (harvest completed).2.
Proof.
  intros rs. subst rs. destruct (harvest_results completed) as [Hr Hc].
  destruct (tally_from_invariant (harvest completed).1 (∅, ∅) [])
    as ([unique counts] & Ht & Hs & Hn & Hd); cbn; try done.
  { rewrite Hr. apply Forall_fmap, Forall_forall. intros c _. apply get_ip_shows. }
  cbn in Hs, Hn, Hd. exists unique, counts. split_and!; try done.
  - rewrite Hs, elem_of_list_to_set. unfold counted_ips.
    by intros [? _]%list_elem_of_filter.
  - rewrite Hs, Hc. etrans; [apply inj_le, size_list_to_set_le|].
    unfold counted_ips. apply inj_le. etrans; [apply length_filter|].
    rewrite Hr. etrans; [apply omap_length_le|]. by rewrite length_fmap.
Qed.

End LoggerCoverage.

(** * Properties of analyze_results.py *)

Lemma yes_no_count j (rows : list StatRow) (f : StatRow → string) row :
  f row = yes_no j →
  Z.of_nat (length (filter (λ r, f r = "Yes") (rows ++ [row])))
  = Z.of_nat (length (filter (λ r, f r = "Yes") rows))
    + (if json_truthy j then 1 else 0).
Proof.
  intros Hf. rewrite filter_app, length_app, filter_cons, filter_nil, Hf.
  unfold yes_no. destruct (json_truthy j).
  - rewrite decide_True by done. cbn. lia.
  - rewrite decide_False by done. cbn. lia.
Qed.

(** One round of the loop: either nothing changes, or one row for this
    entry is appended and the counters follow. *)
Lemma analyze_entry_step t ip result t' :
  analyze_entry t ip result = Some t' →
  (t' = t ∨
   ∃ row, stats t' = stats t ++ [row] ∧ row_IP row = ip ∧
          entry_success result = true ∧
          (entry_counts t → entry_counts t')).
Proof.
  unfold analyze_entry, entry_success.
  destruct (dict_get result "success" JNull) as [success|];
    cbn [mbind option_bind]; [|done].
  destruct (json_truthy success) eqn:Hs; cbn [negb]; [|intros [= <-]; by left].
  destruct (dict_get result "data" (JObj [])) as [result_data|];
    cbn [mbind option_bind]; [|done].
  destruct (dict_items result_data) as [members|]; cbn [mbind option_bind]; [|done].
  destruct (pick_ip_data members) as [ip_data|]; [|intros [= <-]; by left].
  destruct (json_truthy ip_data); cbn [negb]; [|intros [= <-]; by left].
  intros H. right.
  repeat match type of H with
  | (?x ≫= _) = Some _ => destruct x as [?|]; cbn [mbind option_bind] in H; [|done]
  end.
  injection H as <-. eexists. split; [done|]. split; [done|]. split; [done|].
  intros (Hr & Hc & Hp & Hv & Ht). unfold entry_counts. cbn.
  rewrite !length_app, Hr, Hc, Hp, Hv, Ht. cbn [length].
  split_and!; try done; symmetry; by apply yes_no_count.
Qed.

Lemma analyze_entries_step items : ∀ t t',
  analyze_entries t items = Some t' →
  ∃ rows, stats t' = stats t ++ rows ∧
          row_IP <$> rows `sublist_of`
            (filter (λ kv, entry_success kv.2 = true) items).*1 ∧
          (entry_counts t → entry_counts t').
Proof.
  induction items as [|[ip result] items IH]; intros t t'.
  - intros [= <-]. exists []. by rewrite app_nil_r.
  - cbn [analyze_entries].
    destruct (analyze_entry t ip result) as [mid|] eqn:Hstep;
      cbn [mbind option_bind]; [|done].
    intros (rows & Hrows & Hsub & Hcounts)%IH. rewrite filter_cons. cbn [snd].
    apply analyze_entry_step in Hstep as [->|(row & Hrow & Hip & Hok & Hc)].
    + exists rows. split_and!; [done| |done].
      destruct (decide (entry_success result = true));
        [rewrite fmap_cons; by apply sublist_cons|done].
    + exists (row :: rows). rewrite Hrows, Hrow, <- app_assoc.
      split_and!; [done| |auto].
      rewrite decide_True by done. rewrite !fmap_cons. cbn [fst]. rewrite Hip.
      by apply sublist_skip.
Qed.

Lemma empty_tables_counts : entry_counts empty_tables.
Proof. by unfold entry_counts. Qed.

Lemma analyze_tables_items data t :
  analyze_tables data = Some t →
  ∃ items, dict_get data "results" (JObj []) = Some (JObj items) ∧
           analyze_entries empty_tables items = Some t.
Proof.
  unfold analyze_tables.
  destruct (dict_get data "metadata" (JObj [])); cbn; [|done].
  destruct (dict_get data "results" (JObj [])) as [[]|]; cbn; try done.
  intros H. by eexists.
Qed.

(** X17: the rows of the statistics table come from the entries of
    ['results'] that pass the ['success'] test, in the order of the
    document and at most one per entry: the ['IP'] column is a
    subsequence of the keys of those entries, so failed checks never
    reach the table. *)
Theorem stats_rows_from_successes data t :
  analyze_tables data = Some t →
  ∃ items, dict_get data "results" (JObj []) = Some (JObj items) ∧
           row_IP <$> stats t `sublist_of`
             (filter (λ kv, entry_success kv.2 = true) items).*1 ∧
           (length (stats t) ≤ length items)%nat.
Proof.
  intros (items & Hitems & Hrun)%analyze_tables_items.
  exists items. split; [done|].
  apply analyze_entries_step in Hrun as (rows & Hrows & Hsub & _).
  cbn in Hrows. subst rows. split; [done|].
  apply sublist_length in Hsub. rewrite !length_fmap in Hsub.
  etrans; [exact Hsub|]. apply length_filter.
Qed.

(** X18: the counters of the analysis agree with its table: there is one
    risk score and one counted country per row, and [proxy_count],
    [vpn_count] and [tor_count] are the numbers of rows whose ['Proxy'],
    ['VPN'] and ['Tor'] column reads ['Yes']; none exceeds the number of
    rows. *)
Theorem counters_agree_with_rows data t :
  analyze_tables data = Some t →
  let total := Z.of_nat (length (stats t)) in
  length (risk_scores t) = length (stats t) ∧
  length (country_marks t) = length (stats t) ∧
  proxy_count t = Z.of_nat (length (filter (λ r, row_Proxy r = "Yes") (stats t))) ∧
  vpn_count t = Z.of_nat (length (filter (λ r, row_VPN r = "Yes") (stats t))) ∧
  tor_count t = Z.of_nat (length (filter (λ r, row_Tor r = "Yes") (stats t))) ∧
  0 ≤ proxy_count t ≤ total ∧ 0 ≤ vpn_count t ≤ total ∧ 0 ≤ tor_count t ≤ total.
Proof.
  intros (items & _ & Hrun)%analyze_tables_items total. subst total.
  apply analyze_entries_step in Hrun as (rows & _ & _ & Hc).
  destruct (Hc empty_tables_counts) as (Hr & Hm & Hp & Hv & Ht).
  split_and!; try done; rewrite ?Hp, ?Hv, ?Ht; try lia;
    apply inj_le, length_filter.
Qed.

Lemma analyze_entries_app items1 : ∀ t items2,
  analyze_entries t (items1 ++ items2)
  = t' ← analyze_entries t items1; analyze_entries t' items2.
Proof.
  induction items1 as [|[ip result] items1 IH]; intros t items2; cbn; [done|].
  destruct (analyze_entry t ip result); cbn; [apply IH|done].
Qed.

Lemma analyze_entries_no_success items : ∀ t,
  Forall (λ kv : string * Json, ∃ fields, kv.2 = JObj fields ∧
                                          entry_success kv.2 = false) items →
  analyze_entries t items = Some t.
Proof.
  induction items as [|[ip result] items IH]; intros t Hall; cbn; [done|].
  apply Forall_cons in Hall as [(fields & Hf & Hs) Hall]. cbn in Hf, Hs. subst result.
  unfold analyze_entry. unfold entry_success in Hs. cbn in *. rewrite Hs. cbn.
  by apply IH.
Qed.

(** X19: a document in which no entry of ['results'] has a true
    ['success'] (every check failed, or there are no entries) ends the
    analyzer with exit status 0 before any table is handed to a writer. *)
Theorem no_success_no_output prog json_file rest load top items :
  load json_file = LoadedJson (JObj top) →
  jlookup "results" top = Some (JObj items) →
  Forall (λ kv : string * Json, ∃ fields, kv.2 = JObj fields ∧
                                          entry_success kv.2 = false) items →
  analyze_main (prog :: json_file :: rest) load = Exit 0.
Proof.
  intros Hload Hres Hall. unfold analyze_main. rewrite Hload.
  unfold analyze_tables. cbn. rewrite Hres. cbn.
  by rewrite analyze_entries_no_success.
Qed.

(** X20: one entry of ['results'] that is not a dictionary ends the whole
    analysis with exit status 1 and no table, whatever the entries before
    and after it hold. *)
Theorem malformed_entry_aborts prog json_file rest load top pre ip bad post :
  load json_file = LoadedJson (JObj top) →
  jlookup "results" top = Some (JObj (pre ++ (ip, bad) :: post)) →
  (∀ fields, bad ≠ JObj fields) →
  analyze_main (prog :: json_file :: rest) load = Exit 1.
Proof.
  intros Hload Hres Hbad. unfold analyze_main. rewrite Hload.
  unfold analyze_tables. cbn. rewrite Hres. cbn.
  rewrite analyze_entries_app.
  destruct (analyze_entries empty_tables pre) as [t|]; cbn; [|done].
  assert (Hraise : analyze_entry t ip bad = None).
  { unfold analyze_entry. destruct bad; try done. by destruct (Hbad members). }
  by rewrite Hraise.
Qed.

(** * The further properties at concrete worlds *)

Module CaseWitness.
Import Demo Cases.




Lemma total_backoff_bound_witness :
  let t := trace (@check_ip_proxycheck readable "9.9.9.9" 3 2 false) in
  Forall (λ d, 2 ≤ d ≤ 4) (sleeps t) ∧ 0 ≤ total_sleep t ≤ 6.
Proof. apply (@total_backoff_bound readable "9.9.9.9" 3 2 false); lia. Defined.

Lemma no_attempts_no_outcome_witness :
  @check_ip_proxycheck readable "1.2.3.4" (-1) 2 true = (None, []).
Proof.
  destruct (@no_attempts_no_outcome readable "1.2.3.4" (-1) 2 true) as [H _];
    [lia|exact H].
Defined.

Lemma export_rows_read :
  @DictReader readable (skip_sep export_lines) = Some export_rows.
Proof. vm_compute. reflexivity. Defined.

Lemma export_rows_filled : Forall (λ row : Row, row !! "Ip" ≠ Some None) export_rows.
Proof.
  apply Forall_forall. intros row Hrow.
  let rows := eval vm_compute in export_rows in change export_rows with rows in Hrow.
  repeat (apply elem_of_cons in Hrow as [->|Hrow]; [by vm_compute|]).
  by apply elem_of_nil in Hrow.
Defined.

Lemma provider_membership_witness :
  "8.8.8.8" ∈ @load_ips_from_csv readable "export.csv" ↔
  ∃ row cell, row ∈ export_rows ∧ row_get row "Ip" "" = Some cell ∧
              clean_cell cell = "8.8.8.8" ∧ @dotted_quad readable "8.8.8.8".
Proof.
  exact (@provider_membership readable "export.csv" export_lines export_rows
           eq_refl export_rows_read export_rows_filled "8.8.8.8").
Defined.

Lemma short_row_empties_result_witness :
  @load_ips_from_csv forward_run "short.csv" = [].
Proof.
  apply (@short_row_empties_result forward_run "short.csv" short_lines ["Date"; "Ip"]
           [["2024-01-01"; "9.9.9.9"]; ["2024-01-02"]] ["2024-01-02"]).
  - reflexivity.
  - vm_compute. reflexivity.
  - right. left.
  - discriminate.
  - left.
Defined.

Lemma no_ip_column_no_targets_witness :
  @load_ips_from_csv forward_run "nocolumn.csv" = [].
Proof.
  apply (@no_ip_column_no_targets forward_run "nocolumn.csv" nocolumn_lines ["Date"; "IP"]
           [["2024-01-01"; "9.9.9.9"]]).
  - reflexivity.
  - vm_compute. reflexivity.
  - intros [H|[H|H]%elem_of_cons]%elem_of_cons; [discriminate..|by apply elem_of_nil in H].
Defined.

Lemma row_order_irrelevant_witness :
  @load_ips_from_csv forward_run "forward.csv"
  = @load_ips_from_csv forward_run "backward.csv".
Proof.
  apply (@row_order_irrelevant forward_run "forward.csv" "backward.csv"
           forward_lines backward_lines ["Ip"]
           [["9.9.9.9"]; ["1.2.3.4"]; ["7.7.7"]] [["7.7.7"]; ["1.2.3.4"]; ["9.9.9.9"]]).
  - reflexivity.
  - reflexivity.
  - vm_compute. reflexivity.
  - vm_compute. reflexivity.
  - apply (reverse_Permutation [["7.7.7"]; ["1.2.3.4"]; ["9.9.9.9"]]).
Defined.

Lemma completion_order_irrelevant_witness :
  (collect true initial_globals
     (@submit_all readable ["1.2.3.4"; "8.8.8.8"; "9.9.9.9"])).1
  = (collect true initial_globals
       (reverse (@submit_all readable ["1.2.3.4"; "8.8.8.8"; "9.9.9.9"]))).1.
Proof.
  apply completion_order_irrelevant.
  - symmetry. apply reverse_Permutation.
  - rewrite (@submit_all_ips readable).
    apply (bool_decide_unpack _). vm_compute. exact I.
Defined.

Lemma readable_output :
  written (@main readable)
  = Some ("proxycheck_results.json",
          @build_output readable "export.csv"
            ["1.2.3.4"; "8.8.8.8"; "9.9.9.9"] (final (@main readable))).
Proof. vm_compute. reflexivity. Defined.

Lemma counters_by_outcome_witness :
  successful (metadata (@build_output readable "export.csv"
     ["1.2.3.4"; "8.8.8.8"; "9.9.9.9"] (final (@main readable)))) = 2 ∧
  failed (metadata (@build_output readable "export.csv"
     ["1.2.3.4"; "8.8.8.8"; "9.9.9.9"] (final (@main readable)))) = 1.
Proof.
  destruct (@counters_by_outcome readable "proxycheck.py" "export.csv" [] _ _
              eq_refl Witness.reverse_completion readable_output) as [Hs Hf].
  rewrite Witness.demo_targets in Hs, Hf.
  split; [rewrite Hs|rewrite Hf]; vm_compute; reflexivity.
Defined.

Example forward_targets :
  @load_ips_from_csv forward_run "forward.csv" = ["1.2.3.4"; "9.9.9.9"].
Proof. vm_compute. reflexivity. Qed.

Lemma forward_completion : ∀ fs : list Future, @as_completed forward_run fs ≡ₚ fs.
Proof. intros fs. apply reverse_Permutation. Defined.

Lemma forward_output :
  written (@main forward_run)
  = Some ("out.json",
          @build_output forward_run "forward.csv"
            ["1.2.3.4"; "9.9.9.9"] (final (@main forward_run))).
Proof. vm_compute. reflexivity. Defined.

Lemma all_answered_all_successful_witness :
  let data := @build_output forward_run "forward.csv"
                ["1.2.3.4"; "9.9.9.9"] (final (@main forward_run)) in
  successful (metadata data) = 2 ∧ failed (metadata data) = 0 ∧
  output_results data !! "9.9.9.9"
    = Some (@success_outcome forward_run "9.9.9.9"
              (JObj [("url", JStr "https://proxycheck.io/v3/9.9.9.9?key=secret")]) 0).
Proof.
  intros data.
  destruct (@all_answered_all_successful forward_run "proxycheck.py" "forward.csv"
              ["out.json"] "out.json" data
              (λ ip, JObj [("url", JStr (@request_url forward_run ip))])
              eq_refl forward_completion (λ _, eq_refl) forward_output)
    as (Hs & Hf & Hl).
  rewrite forward_targets in Hl.
  split; [rewrite Hs; reflexivity|]. split; [exact Hf|].
  apply Forall_inv_tail, Forall_inv in Hl. exact Hl.
Defined.

Lemma get_ip_report_witness :
  @get_ip readable 1 !! "ip" = Some (VStr "203.0.113.7") ∧
  @get_ip readable 1 !! "id" = Some (VInt 1) ∧
  is_Some (@get_ip readable 2 !! "note").
Proof.
  destruct (@get_ip_report readable 1) as (Hid & _ & Hbody).
  destruct (@get_ip_report readable 2) as (_ & Hnote & _).
  split; [vm_compute; reflexivity|]. split; [exact Hid|].
  apply Hnote. reflexivity.
Defined.

Lemma mixed_analysis : analyze_tables (document mixed_entries) = Some mixed_tables.
Proof. vm_compute. reflexivity. Defined.

Lemma stats_rows_from_successes_witness :
  row_IP <$> stats mixed_tables = ["1.2.3.4"] ∧
  ∃ items, dict_get (document mixed_entries) "results" (JObj []) = Some (JObj items) ∧
           row_IP <$> stats mixed_tables `sublist_of`
             (filter (λ kv, entry_success kv.2 = true) items).*1 ∧
           (length (stats mixed_tables) ≤ length items)%nat.
Proof.
  split; [vm_compute; reflexivity|].
  exact (stats_rows_from_successes _ _ mixed_analysis).
Defined.

Lemma counters_agree_with_rows_witness :
  proxy_count mixed_tables = 1 ∧ vpn_count mixed_tables = 0 ∧
  length (risk_scores mixed_tables) = length (stats mixed_tables).
Proof.
  destruct (counters_agree_with_rows _ _ mixed_analysis) as (Hr & _ & Hp & Hv & _).
  split; [rewrite Hp; vm_compute; reflexivity|].
  split; [rewrite Hv; vm_compute; reflexivity|exact Hr].
Defined.

Lemma no_success_no_output_witness :
  analyze_main ["analyze_results.py"; "failed.json"] shelf = Exit 0.
Proof.
  apply (no_success_no_output "analyze_results.py" "failed.json" [] shelf
           [ ("metadata", JObj [ ("total_ips", JNum 1 0) ]);
             ("results", JObj [("9.9.9.9", failed_entry)]) ]
           [("9.9.9.9", failed_entry)]).
  - reflexivity.
  - reflexivity.
  - constructor; [|constructor]. eexists. split; reflexivity.
Defined.

Lemma malformed_entry_aborts_witness :
  analyze_main ["analyze_results.py"; "broken.json"; "stats.csv"] shelf = Exit 1.
Proof.
  apply (malformed_entry_aborts "analyze_results.py" "broken.json" ["stats.csv"] shelf
           [ ("metadata", JObj [ ("total_ips", JNum 3 0) ]);
             ("results", JObj [ ("1.2.3.4", checked_entry); ("8.8.8.8", JStr "pending");
                                ("9.9.9.9", failed_entry) ]) ]
           [("1.2.3.4", checked_entry)] "8.8.8.8" (JStr "pending")
           [("9.9.9.9", failed_entry)]).
  - reflexivity.
  - reflexivity.
  - discriminate.
Defined.

(** The same entries around the malformed one are analysed when it is
    absent. *)
Example mixed_run :
  analyze_main ["analyze_results.py"; "mixed.json"] shelf
  = StatsHandedOver "proxycheck_stats.csv" mixed_tables.
Proof. vm_compute. reflexivity. Qed.

End CaseWitness.
